(** * Stadium pipeline: a shallow embedding of [pipelines/wikipedia_pipeline.py]

    The pure parts of the extract and transform stages are embedded as
    executable functions.  A Python [str] is a list of Unicode code points;
    exceptions are an explicit error type; the XCom store of the
    orchestrator is a finite map; the geocoding service is an oracle. *)

From Stdlib Require Import ZArith NArith List Bool Lia String Ascii.
From stdpp Require Import base gmap strings list.

Import ListNotations.
Local Open Scope Z_scope.

(** ** Python strings *)

(** A code point. *)
Definition char : Type := N.

(** A Python [str]: a sequence of code points. *)
Definition str : Type := list char.

(** An ASCII literal of the source as a [str]. *)
Definition lit (s : string) : str :=
  List.map N_of_ascii (list_ascii_of_string s).

(** [Py_UNICODE_ISSPACE]: the characters [str.strip()] removes. *)
Definition isspace (c : char) : bool :=
  ((9 <=? c) && (c <=? 13) || (28 <=? c) && (c <=? 32)
   || (c =? 133) || (c =? 160) || (c =? 5760)
   || (8192 <=? c) && (c <=? 8202)
   || (c =? 8232) || (c =? 8233) || (c =? 8239) || (c =? 8287)
   || (c =? 12288))%N.

Fixpoint lstrip (s : str) : str :=
  match s with
  | [] => []
  | c :: s' => if isspace c then lstrip s' else s
  end.

Definition rstrip (s : str) : str := rev (lstrip (rev s)).

(** [text.strip()] *)
Definition strip (s : str) : str := rstrip (lstrip s).

(** [s.startswith(p)] *)
Fixpoint startswith (p s : str) : bool :=
  match p, s with
  | [], _ => true
  | _ :: _, [] => false
  | a :: p', b :: s' => (a =? b)%N && startswith p' s'
  end.

(** [sep in s] *)
Fixpoint occurs (sep s : str) : bool :=
  match s with
  | [] => startswith sep []
  | _ :: s' => startswith sep s || occurs sep s'
  end.

(** [s.find(sep)], counting from [i]: the lowest index of an occurrence,
    or [-1]. *)
Fixpoint find_from (sep s : str) (i : Z) : Z :=
  match s with
  | [] => if startswith sep [] then i else -1
  | _ :: s' => if startswith sep s then i else find_from sep s' (i + 1)
  end.

Definition find (sep s : str) : Z := find_from sep s 0.

(** [s.split(sep)] for a non-empty [sep] (all separators of the program
    are non-empty literals): [cur] is the piece being read, reversed, and
    [skip] counts the characters of a matched separator still to drop. *)
Fixpoint split_go (sep : str) (skip : nat) (cur : str) (s : str) : list str :=
  match s with
  | [] => [rev cur]
  | c :: s' =>
      match skip with
      | S k => split_go sep k cur s'
      | O =>
          if startswith sep s
          then rev cur :: split_go sep (length sep - 1) [] s'
          else split_go sep 0 (c :: cur) s'
      end
  end.

Definition split (sep s : str) : list str := split_go sep 0 [] s.

(** [s.replace(old, new)] for a non-empty [old]: occurrences are replaced
    from the left and do not overlap. *)
Fixpoint replace_go (old new : str) (skip : nat) (s : str) : str :=
  match s with
  | [] => []
  | c :: s' =>
      match skip with
      | S k => replace_go old new k s'
      | O =>
          if startswith old s
          then new ++ replace_go old new (length old - 1) s'
          else c :: replace_go old new 0 s'
      end
  end.

Definition replace (old new s : str) : str := replace_go old new 0 s.

(** Truth value of a Python [int]. *)
Definition truthy (z : Z) : bool := negb (z =? 0).

(** ** Literals of the source *)

Definition NBSP : str := Eval vm_compute in lit "&nbsp".
(** [' ♦']: a space and U+2666. *)
Definition DIAMOND : str := [32; 9830]%N.
Definition LBRACKET : str := Eval vm_compute in lit "[".
Definition FORMERLY : str := Eval vm_compute in lit " (formerly)".
Definition NEWLINE : str := [10]%N.
Definition COMMA : str := Eval vm_compute in lit ",".
Definition PERIOD : str := Eval vm_compute in lit ".".
Definition DSLASH : str := Eval vm_compute in lit "//".
Definition HTTPS : str := Eval vm_compute in lit "https://".
(** The sentinel ['NO_IMAGE'] of the extract stage. *)
Definition NO_IMAGE_SENTINEL : str := Eval vm_compute in lit "NO_IMAGE".
(** The module constant [NO_IMAGE]. *)
Definition NO_IMAGE : str :=
  Eval vm_compute in
    lit "https://upload.wikimedia.org/wikipedia/commons/thumb/0/0a/No-image-available.png/480px-No-image-available.png".

(** ** [clean_text] *)

Definition clean_text (text : str) : str :=
  let text := strip text in
  let text := replace NBSP [] text in
  let text :=
    if truthy (find DIAMOND text) then nth 0 (split DIAMOND text) [] else text in
  let text :=
    if negb (find LBRACKET text =? -1)
    then nth 0 (split LBRACKET text) [] else text in
  let text :=
    if negb (find FORMERLY text =? -1)
    then nth 0 (split FORMERLY text) [] else text in
  replace NEWLINE [] text.

(** ** Exceptions *)

Inductive exception : Type :=
  | IndexError | AttributeError | TypeError | KeyError | ValueError
  | OverflowError | GeocoderServiceError.

Inductive result (A : Type) : Type :=
  | Ok (a : A)
  | Raise (e : exception).
Arguments Ok {A} a.
Arguments Raise {A} e.

#[global] Instance result_ret : MRet result := fun A a => Ok a.
#[global] Instance result_bind : MBind result := fun A B f m =>
  match m with
  | Ok a => f a
  | Raise e => Raise e
  end.

(** [l[i]] for a literal index [i >= 0]. *)
Definition getitem {A : Type} (l : list A) (i : nat) : result A :=
  match l !! i with
  | Some a => Ok a
  | None => Raise IndexError
  end.

(** ** The extract stage *)

(** What the extract stage reads of the parsed page: of an [img] element
    its [src] attribute ([get("src")] is [None] when it has none), of a
    [td] cell its [.text] and its first [img] descendant ([find("img")]),
    of a table row its [td] cells ([find_all("td")]). *)
Record img : Type := { src : option str }.
Record td : Type := { text : str; find_img : option img }.
Definition tr : Type := list td.

(** The dictionary [values] built for one row; [images] is a JSON string
    or null once it went through the result store. *)
Record values : Type := {
  rank : Z;
  stadium : str;
  capacity : str;
  region : str;
  country : str;
  city : str;
  images : option str;
  home_team : str
}.

(** The capacity entry: [clean_text(..).replace(',', '').replace('.', '')]. *)
Definition capacity_text (cell : str) : str :=
  replace PERIOD [] (replace COMMA [] (clean_text cell)).

(** The images entry, a conditional expression on the image cell. *)
Definition image_url (cell : td) : result str :=
  match find_img cell with
  | Some im =>
      match src im with
      | Some s => seg ← getitem (split DSLASH s) 1; Ok (HTTPS ++ seg)
      | None => Raise AttributeError
      end
  | None => Ok NO_IMAGE_SENTINEL
  end.

(** The body of the loop for row [i] with cells [tds]. *)
Definition row_values (i : Z) (tds : tr) : result values :=
  c0 ← getitem tds 0;
  c1 ← getitem tds 1;
  c2 ← getitem tds 2;
  c3 ← getitem tds 3;
  c4 ← getitem tds 4;
  c5 ← getitem tds 5;
  image ← image_url c5;
  c6 ← getitem tds 6;
  Ok {| rank := i;
        stadium := clean_text (text c0);
        capacity := capacity_text (text c1);
        region := clean_text (text c2);
        country := clean_text (text c3);
        city := clean_text (text c4);
        images := Some image;
        home_team := clean_text (text c6) |}.

(** [for i in range(i, ...)] over the remaining rows, appending to [data]. *)
Fixpoint map_rows (i : Z) (rows : list tr) : result (list values) :=
  match rows with
  | [] => Ok []
  | tds :: rest =>
      v ← row_values i tds;
      data ← map_rows (i + 1) rest;
      Ok (v :: data)
  end.

(** The loop of [extract_wikipedia_data]: [range(1, len(rows))]. *)
Definition extract_rows (rows : list tr) : result (list values) :=
  map_rows 1 (skipn 1 rows).

(** ** Integer coercion *)

(** The zero digits of Unicode 14.0 (general category Nd, the table of
    CPython 3.11); the digits one to nine of a script follow its zero. *)
Definition DECIMAL_ZEROS : list char :=
  [48; 1632; 1776; 1984; 2406; 2534; 2662; 2790; 2918; 3046; 3174; 3302;
   3430; 3558; 3664; 3792; 3872; 4160; 4240; 6112; 6160; 6470; 6608; 6784;
   6800; 6992; 7088; 7232; 7248; 42528; 43216; 43264; 43472; 43504; 43600;
   44016; 65296; 66720; 68912; 69734; 69872; 69942; 70096; 70384; 70736;
   70864; 71248; 71360; 71472; 71904; 72016; 72784; 73040; 73120; 92768;
   92864; 93008; 120782; 120792; 120802; 120812; 120822; 123200; 123632;
   125264; 130032]%N.

(** [Py_UNICODE_TODECIMAL]: the value of a decimal digit of any script. *)
Definition digit_val (c : char) : option Z :=
  (fun zero => Z.of_N (c - zero))
    <$> List.find (fun zero => (zero <=? c) && (c <? zero + 10))%N
          DECIMAL_ZEROS.

(** The blanks [int()] skips around a number: those of C's [isspace], and
    the non-ASCII ones of [str.isspace()], which it first turns into
    spaces.  The ASCII separators U+001C to U+001F are not among them. *)
Definition int_isspace (c : char) : bool :=
  ((9 <=? c) && (c <=? 13) || (c =? 32) || (128 <=? c) && isspace c)%N.

Fixpoint lstrip_with (blank : char -> bool) (s : str) : str :=
  match s with
  | [] => []
  | c :: s' => if blank c then lstrip_with blank s' else s
  end.

Definition strip_with (blank : char -> bool) (s : str) : str :=
  rev (lstrip_with blank (rev (lstrip_with blank s))).

(** Digits with single underscores between them: the value read so far
    and the number of digits. *)
Fixpoint digits_go (acc : Z) (count : nat) (after_digit : bool) (s : str)
  : option (Z * nat) :=
  match s with
  | [] => if after_digit then Some (acc, count) else None
  | c :: s' =>
      match digit_val c with
      | Some d => digits_go (10 * acc + d) (S count) true s'
      | None =>
          if ((c =? 95)%N && after_digit)%bool
          then digits_go acc count false s' else None
      end
  end.

(** [sys.int_info.default_max_str_digits]: [int()] refuses a longer
    number. *)
Definition MAX_STR_DIGITS : nat := 4300.

Definition digits (s : str) : option Z :=
  match digits_go 0 0 false s with
  | Some (z, count) => if (count <=? MAX_STR_DIGITS)%nat then Some z else None
  | None => None
  end.

(** [int(s)] for a string; [None] stands for its [ValueError]. *)
Definition int_of_str (s : str) : option Z :=
  match strip_with int_isspace s with
  | 43%N :: ds => digits ds
  | 45%N :: ds => Z.opp <$> digits ds
  | ds => digits ds
  end.

(** One cell of [astype(int)] on a column of strings: [int()], then the
    conversion to [int64]. *)
Definition astype_int (s : str) : result Z :=
  match int_of_str s with
  | None => Raise ValueError
  | Some z =>
      if (- 2 ^ 63 <=? z) && (z <? 2 ^ 63) then Ok z else Raise OverflowError
  end.

(** The value of the float64 nearest to an integer (ties to even), for
    the integers of the [int64] range. *)
Definition float64_of_int (z : Z) : Z :=
  let a := Z.abs z in
  let e := Z.log2 a - 52 in
  if e <=? 0 then z
  else
    let q := Z.shiftr a e in
    let r := a - Z.shiftl q e in
    let half := 2 ^ (e - 1) in
    let q := if (half <? r) || ((r =? half) && Z.odd q) then q + 1 else q in
    Z.sgn z * Z.shiftl q e.

(** ** The transform stage *)

(** [x if x not in ['NO_IMAGE', '', None] else NO_IMAGE] *)
Definition image_or_placeholder (x : option str) : str :=
  match x with
  | None => NO_IMAGE
  | Some s =>
      if bool_decide (s = NO_IMAGE_SENTINEL) || bool_decide (s = [])
      then NO_IMAGE else s
  end.

Inductive log_entry : Type :=
  | LogInfo (msg : string)
  | LogError (msg : string) (e : exception).

Section Transform.

(** Coordinates are compared, never computed with. *)
Context {F : Type} `{EqDecision F}.

(** What [geocode] of the service returns when it resolves a query. *)
Record Location : Type := { latitude : F; longitude : F }.

(** The geocoding service, as a function of the query string: within a
    run the same query gets the same answer; a service that is down is
    outside the model. *)
Variable geocode : str -> option Location.

Definition get_lat_long (country city : str) : option (F * F) :=
  match geocode (city ++ lit ", " ++ country) with
  | Some location => Some (latitude location, longitude location)
  | None => None
  end.

(** A row of [stadiums_df]; [C] and [I] are the types of the cells of
    the columns [capacity] and [images], which the stage converts. *)
Record series {C I : Type} : Type := {
  s_rank : Z;
  s_stadium : str;
  s_capacity : C;
  s_region : str;
  s_country : str;
  s_city : str;
  s_images : I;
  s_home_team : str;
  s_location : option (F * F)
}.
Arguments series : clear implicits.

(** [stadiums_df['location'] = stadiums_df.apply(...)] on a row of
    [pd.DataFrame(data)]. *)
Definition attach_location (x : values) : series str (option str) :=
  {| s_rank := rank x; s_stadium := stadium x; s_capacity := capacity x;
     s_region := region x; s_country := country x; s_city := city x;
     s_images := images x; s_home_team := home_team x;
     s_location := get_lat_long (country x) (stadium x) |}.

Definition set_images {C I J : Type} (f : I -> J) (r : series C I)
  : series C J :=
  {| s_rank := s_rank r; s_stadium := s_stadium r;
     s_capacity := s_capacity r; s_region := s_region r;
     s_country := s_country r; s_city := s_city r;
     s_images := f (s_images r); s_home_team := s_home_team r;
     s_location := s_location r |}.

Definition set_capacity {C D I : Type} (f : C -> result D) (r : series C I)
  : result (series D I) :=
  c ← f (s_capacity r);
  Ok {| s_rank := s_rank r; s_stadium := s_stadium r; s_capacity := c;
        s_region := s_region r; s_country := s_country r;
        s_city := s_city r; s_images := s_images r;
        s_home_team := s_home_team r; s_location := s_location r |}.

Definition set_location {C I : Type} (l : option (F * F)) (r : series C I)
  : series C I :=
  {| s_rank := s_rank r; s_stadium := s_stadium r;
     s_capacity := s_capacity r; s_region := s_region r;
     s_country := s_country r; s_city := s_city r;
     s_images := s_images r; s_home_team := s_home_team r;
     s_location := l |}.

(** The two queries of the stage for a record. *)
Definition primary (x : values) : option (F * F) :=
  get_lat_long (country x) (stadium x).
Definition secondary (x : values) : option (F * F) :=
  get_lat_long (country x) (city x).

(** The row of [stadiums_df] for a record after the three column
    statements, with [cap] the integer read from its capacity. *)
Definition frame_row (x : values) (cap : Z) : series Z str :=
  {| s_rank := rank x; s_stadium := stadium x; s_capacity := cap;
     s_region := region x; s_country := country x; s_city := city x;
     s_images := image_or_placeholder (images x);
     s_home_team := home_team x; s_location := primary x |}.

(** [Series.duplicated()], [keep='first']: marks a value equal to one
    seen before; missing values count as equal to each other. *)
Fixpoint duplicated_go {A : Type} `{EqDecision A} (seen col : list A)
  : list bool :=
  match col with
  | [] => []
  | v :: col' => bool_decide (v ∈ seen) :: duplicated_go (v :: seen) col'
  end.

Definition duplicated {A : Type} `{EqDecision A} (col : list A) : list bool :=
  duplicated_go [] col.

(** Whether the duplicate pass finds a row: some record gets the location
    of an earlier record from its stadium query. *)
Definition has_duplicate (data : list values) : bool :=
  existsb id (duplicated (primary <$> data)).

(** [df[mask]]: the selected rows, each with its index label. *)
Fixpoint select_go {R : Type} (i : nat) (mask : list bool) (df : list R)
  : list (nat * R) :=
  match mask, df with
  | b :: mask', r :: df' =>
      (if b then [(i, r)] else []) ++ select_go (S i) mask' df'
  | _, _ => []
  end.

Definition select {R : Type} (mask : list bool) (df : list R)
  : list (nat * R) := select_go 0 mask df.

(** The row of a frame with index label [i], if there is one. *)
Fixpoint loc {R : Type} (other : list (nat * R)) (i : nat) : option R :=
  match other with
  | [] => None
  | (j, r) :: other' => if (j =? i)%nat then Some r else loc other' i
  end.

(** [DataFrame.update] on one row: every column takes the value of
    [that] unless it is missing there. *)
Definition update_row {C I : Type} (this that : series C I) : series C I :=
  {| s_rank := s_rank that; s_stadium := s_stadium that;
     s_capacity := s_capacity that; s_region := s_region that;
     s_country := s_country that; s_city := s_city that;
     s_images := s_images that; s_home_team := s_home_team that;
     s_location :=
       match s_location that with
       | Some l => Some l
       | None => s_location this
       end |}.

(** A row whose [capacity] went through float64. *)
Definition as_float64 {I : Type} (r : series Z I) : series Z I :=
  {| s_rank := s_rank r; s_stadium := s_stadium r;
     s_capacity := float64_of_int (s_capacity r); s_region := s_region r;
     s_country := s_country r; s_city := s_city r;
     s_images := s_images r; s_home_team := s_home_team r;
     s_location := s_location r |}.

(** [df.update(other)]: aligned on the index labels; rows without a
    partner keep their values.  [other] is first reindexed like [df],
    which fills the rows it lacks with NaN and so turns its [capacity]
    column into float64: unless [other] shares no row with [df] (the
    column is then skipped), the column is rebuilt in float64, every
    capacity rounded to the nearest one.  The column [rank] takes the same
    pass, which changes no integer up to 2^53; ranks are row numbers and
    are kept as they are. *)
Definition update {I : Type} (df : list (series Z I))
    (other : list (nat * series Z I)) : list (series Z I) :=
  let shared := existsb (fun jr => (jr.1 <? length df)%nat) other in
  imap (fun i this =>
          let row :=
            match loc other i with
            | Some that => update_row this that
            | None => this
            end in
          if shared then as_float64 row else row) df.

(** Lines 176 to 179: the frame of the records with its [location]
    column, its [images] normalized and its [capacity] read as integers. *)
Definition astype_frame (data : list values) : result (list (series Z str)) :=
  let stadiums_df := attach_location <$> data in
  let stadiums_df := set_images image_or_placeholder <$> stadiums_df in
  mapM (set_capacity astype_int) stadiums_df.

(** Lines 181 to 183: the duplicate pass. *)
Definition resolve_duplicates (stadiums_df : list (series Z str))
  : list (series Z str) :=
  let duplicates :=
    select (duplicated (s_location <$> stadiums_df)) stadiums_df in
  let duplicates :=
    prod_map id
      (fun x => set_location (get_lat_long (s_country x) (s_city x)) x)
      <$> duplicates in
  update stadiums_df duplicates.

(** The statements of [transform_wikipedia_data] between the pull and
    the push.  A frame built from no records has no columns, and the
    assignment of its [location] column raises. *)
Definition transform (data : list values) : result (list (series Z str)) :=
  match data with
  | [] => Raise ValueError
  | _ :: _ =>
      stadiums_df ← astype_frame data;
      Ok (resolve_duplicates stadiums_df)
  end.

(** *** A service that may raise

    [geolocator.geocode] ends with an answer or with an exception of
    the service (no connection, timeout, quota); nothing catches it. *)
Variable service : str -> result (option Location).

Definition get_lat_long_raising (country city : str)
  : result (option (F * F)) :=
  location ← service (city ++ lit ", " ++ country);
  Ok (match location with
      | Some location => Some (latitude location, longitude location)
      | None => None
      end).

Definition attach_location_raising (x : values)
  : result (series str (option str)) :=
  location ← get_lat_long_raising (country x) (stadium x);
  Ok {| s_rank := rank x; s_stadium := stadium x; s_capacity := capacity x;
        s_region := region x; s_country := country x; s_city := city x;
        s_images := images x; s_home_team := home_team x;
        s_location := location |}.

(** The same statements, each query of lines 177 and 182 made in row
    order and the first exception ending the stage. *)
Definition transform_raising (data : list values)
  : result (list (series Z str)) :=
  match data with
  | [] => Raise ValueError
  | _ :: _ =>
      stadiums_df ← mapM attach_location_raising data;
      let stadiums_df := set_images image_or_placeholder <$> stadiums_df in
      stadiums_df ← mapM (set_capacity astype_int) stadiums_df;
      let duplicates :=
        select (duplicated (s_location <$> stadiums_df)) stadiums_df in
      duplicates ←
        mapM (fun ix : nat * series Z str =>
                location ← get_lat_long_raising (s_country ix.2)
                             (s_city ix.2);
                Ok (ix.1, set_location location ix.2)) duplicates;
      Ok (update stadiums_df duplicates)
  end.

(** ** The result store and the stages as tasks *)

(** A value of the store: the JSON text of the record list, or of the
    frame. *)
Inductive xvalue : Type :=
  | Rows (data : list values)
  | Frame (df : list (series Z str)).

(** The store maps (task id, key) to a value. *)
Record world : Type := {
  xcom : gmap (string * string) xvalue;
  log : list log_entry
}.

Definition xcom_push (task key : string) (v : xvalue) (w : world) : world :=
  {| xcom := <[(task, key) := v]> (xcom w); log := log w |}.

Definition logging (e : log_entry) (w : world) : world :=
  {| xcom := xcom w; log := log w ++ [e] |}.

Definition EXTRACT_TASK : string := "extract_data_from_wikipedia".
Definition TRANSFORM_TASK : string := "transform_wikipedia_data".

(** [extract_wikipedia_data]; [rows] is what
    [get_wikipedia_data(get_wikipedia_page(url))] returned, [None] when
    the page or its table could not be had.  The result is the returned
    status, [None] when the function falls off its [except] branch. *)
Definition extract_wikipedia_data (rows : option (list tr)) (w : world)
  : option string * world :=
  let w := logging (LogInfo "Rows retrieved") w in
  let body :=
    match rows with
    | Some rows => extract_rows rows
    | None => Raise TypeError
    end in
  match body with
  | Ok data => (Some "OK"%string, xcom_push EXTRACT_TASK "rows" (Rows data) w)
  | Raise e => (None, logging (LogError "could not get rows due to" e) w)
  end.

(** [transform_wikipedia_data]: nothing is caught. *)
Definition transform_wikipedia_data (w : world) : result (string * world) :=
  data ← match xcom w !! (EXTRACT_TASK, "rows"%string) with
         | Some (Rows data) => Ok data
         | _ => Raise TypeError
         end;
  df ← transform data;
  Ok ("OK"%string, xcom_push TRANSFORM_TASK "rows" (Frame df) w).

(** The same with a service that may raise. *)
Definition transform_wikipedia_data_raising (w : world)
  : result (string * world) :=
  data ← match xcom w !! (EXTRACT_TASK, "rows"%string) with
         | Some (Rows data) => Ok data
         | _ => Raise TypeError
         end;
  df ← transform_raising data;
  Ok ("OK"%string, xcom_push TRANSFORM_TASK "rows" (Frame df) w).

End Transform.

Arguments series : clear implicits.
Arguments Location : clear implicits.
Arguments xvalue : clear implicits.
Arguments world : clear implicits.

(** ** The page, its table, and the extract task as a whole *)

(** How [requests.get(url, timeout=10)] ends: with a response, or with a
    [RequestException] (no connection, timeout, ...). *)
Inductive http_outcome : Type :=
  | Responded (status_code : Z) (body : str)
  | RequestFailed.

(** [get_wikipedia_page]: [raise_for_status()] raises on the 4xx and 5xx
    codes; the [except] branch prints and falls through, so the function
    returns [None]. *)
Definition get_wikipedia_page (o : http_outcome) : option str :=
  match o with
  | Responded status_code body =>
      if (400 <=? status_code) && (status_code <? 600) then None
      else Some body
  | RequestFailed => None
  end.

Section Page.

Context {F : Type}.

(** The HTML parser: for a page text, the tables matching
    ["table.wikitable.sortable"] in document order, each as its rows
    ([find_all("tr")]). *)
Variable select_tables : str -> list (list tr).

(** [get_wikipedia_data]; parsing a missing page raises. *)
Definition get_wikipedia_data (html : option str) (w : world F)
  : option (list tr) * world F :=
  let w := logging (LogInfo "Data retrieved from page...") w in
  let body :=
    match html with
    | Some html => getitem (select_tables html) 0
    | None => Raise TypeError
    end in
  match body with
  | Ok table_rows => (Some table_rows, w)
  | Raise e => (None, logging (LogError "could not get data due to" e) w)
  end.

(** [extract_wikipedia_data] with its two calls. *)
Definition extract_stage (o : http_outcome) (w : world F)
  : option string * world F :=
  let html := get_wikipedia_page o in
  let '(rows, w) := get_wikipedia_data html w in
  extract_wikipedia_data rows w.

End Page.

(** ** The write stage *)

Definition FILE_PREFIX : str := Eval vm_compute in lit "stadium_cleaned_".
Definition UNDERSCORE : str := Eval vm_compute in lit "_".
Definition COLON : str := Eval vm_compute in lit ":".
Definition CSV : str := Eval vm_compute in lit ".csv".
Definition DATA_DIR : str :=
  Eval vm_compute in
    lit "abfs://footballdata@footballdatast.dfs.core.windows.net/data/".

(** [file_name], from [str(datetime.now().date())] and
    [str(datetime.now().time())]. *)
Definition file_name (date time : str) : str :=
  FILE_PREFIX ++ date ++ UNDERSCORE ++ replace COLON UNDERSCORE time ++ CSV.

(** [write_wikipedia_data] up to its call of [to_csv]: the path and the
    frame it passes.  Nothing is caught. *)
Definition write_wikipedia_data {F : Type} (date time : str) (w : world F)
  : result (str * list (series F Z str)) :=
  data ← match xcom w !! (TRANSFORM_TASK, "rows"%string) with
         | Some (Frame df) => Ok df
         | _ => Raise TypeError
         end;
  Ok (DATA_DIR ++ file_name date time, data).

(** ** The rules of the Field Cleaner, in the words of the specification *)

(** Everything from the first occurrence of [marker] onward is dropped;
    a text without the marker is kept whole. *)
Fixpoint truncate_at (marker s : str) : str :=
  match s with
  | [] => []
  | c :: s' => if startswith marker s then [] else c :: truncate_at marker s'
  end.

(** What follows the first occurrence of [marker], if it occurs. *)
Fixpoint after_first (marker s : str) : option str :=
  match s with
  | [] => None
  | _ :: s' =>
      if startswith marker s then Some (skipn (length marker) s)
      else after_first marker s'
  end.

Definition remove_char (c : char) (s : str) : str :=
  List.filter (fun x => negb (x =? c)%N) s.

(** The six rules, each on the output of the one before. *)
Definition clean_rules (text : str) : str :=
  remove_char 10%N
    (truncate_at FORMERLY
       (truncate_at LBRACKET
          (truncate_at DIAMOND
             (replace NBSP [] (strip text))))).

(** ** Well-formed rows *)

(** An image cell the images entry can be computed from: no [img] at all,
    or an [img] whose [src] is present and contains ['//']. *)
Definition image_cell_ok (c : td) : bool :=
  match find_img c with
  | None => true
  | Some im =>
      match src im with
      | Some s => occurs DSLASH s
      | None => false
      end
  end.

(** A row the loop body maps to a record: seven cells or more, and an
    image cell as above. *)
Definition row_ok (tds : tr) : bool :=
  (7 <=? length tds)%nat
  && match tds !! 5%nat with
     | Some c => image_cell_ok c
     | None => false
     end.

(** ** Test doubles *)

Definition cell (s : string) : td := {| text := lit s; find_img := None |}.
Definition pic (s : string) : td :=
  {| text := []; find_img := Some {| src := Some (lit s) |} |}.

Definition header : tr := [].
Definition row_a : tr :=
  [cell "Stadium A"; cell "90,000"; cell "Europe"; cell "X"; cell "P";
   pic "//upload.example.org/a.jpg"; cell "Team A"].
Definition row_b : tr :=
  [cell "Stadium B"; cell "1.234"; cell "Europe"; cell "X"; cell "Q";
   cell ""; cell "Team B"].
Definition row_short : tr := [cell "Stadium C"; cell "5"].
Definition row_two_slashes : tr :=
  [cell "Stadium D"; cell "7"; cell "Asia"; cell "Y"; cell "R";
   pic "//a.org/x//y.jpg"; cell "Team D"].

Definition table_ok : list tr := [header; row_a; row_b].
Definition table_short : list tr := [header; row_a; row_short].

(** The records of [table_ok]. *)
Definition rec_a : values :=
  {| rank := 1; stadium := lit "Stadium A"; capacity := lit "90000";
     region := lit "Europe"; country := lit "X"; city := lit "P";
     images := Some (lit "https://upload.example.org/a.jpg");
     home_team := lit "Team A" |}.
Definition rec_b : values :=
  {| rank := 2; stadium := lit "Stadium B"; capacity := lit "1234";
     region := lit "Europe"; country := lit "X"; city := lit "Q";
     images := Some (lit "NO_IMAGE"); home_team := lit "Team B" |}.
Definition data_ok : list values := [rec_a; rec_b].

Definition at_ (lat long : Z) : option (Location Z) :=
  Some {| latitude := lat; longitude := long |}.

(** Both stadium queries collide on one point; the city query of the
    second record resolves elsewhere. *)
Definition geo_city (q : str) : option (Location Z) :=
  if bool_decide (q = lit "Stadium A, X") then at_ 1 2
  else if bool_decide (q = lit "Stadium B, X") then at_ 1 2
  else if bool_decide (q = lit "Q, X") then at_ 3 4
  else None.

(** Both stadium queries collide; no city query resolves. *)
Definition geo_collide (q : str) : option (Location Z) :=
  if bool_decide (q = lit "Stadium A, X") then at_ 1 2
  else if bool_decide (q = lit "Stadium B, X") then at_ 1 2
  else None.

(** The stadium queries resolve to different points. *)
Definition geo_apart (q : str) : option (Location Z) :=
  if bool_decide (q = lit "Stadium A, X") then at_ 1 2
  else if bool_decide (q = lit "Stadium B, X") then at_ 5 6
  else None.

(** Only city queries resolve. *)
Definition geo_only_city (q : str) : option (Location Z) :=
  if bool_decide (q = lit "Q, X") then at_ 3 4 else None.

(** The frames the stage pushes for [data_ok] under these geocoders. *)
Definition frame_of (r : result (list (series Z Z str)))
  : list (series Z Z str) :=
  match r with Ok df => df | Raise _ => [] end.
Definition frame_city : list (series Z Z str) :=
  Eval vm_compute in frame_of (astype_frame geo_city data_ok).
Definition out_city : list (series Z Z str) :=
  Eval vm_compute in frame_of (transform geo_city data_ok).
Definition out_collide : list (series Z Z str) :=
  Eval vm_compute in frame_of (transform geo_collide data_ok).
Definition out_only_city : list (series Z Z str) :=
  Eval vm_compute in frame_of (transform geo_only_city data_ok).
Definition out_apart : list (series Z Z str) :=
  Eval vm_compute in frame_of (transform geo_apart data_ok).

(** A second record whose capacity is 2^53 + 1. *)
Definition rec_b_large : values :=
  {| rank := 2; stadium := lit "Stadium B";
     capacity := lit "9007199254740993";
     region := lit "Europe"; country := lit "X"; city := lit "Q";
     images := Some (lit "NO_IMAGE"); home_team := lit "Team B" |}.
Definition data_rounded : list values := [rec_a; rec_b_large].
Definition out_rounded : list (series Z Z str) :=
  Eval vm_compute in frame_of (transform geo_city data_rounded).

(** A service that answers as [geo_city], and one that is down. *)
Definition svc_city (q : str) : result (option (Location Z)) :=
  Ok (geo_city q).
Definition svc_down (q : str) : result (option (Location Z)) :=
  Raise GeocoderServiceError.

(** The store and log before the run. *)
Definition w0 : world Z := {| xcom := ∅; log := [] |}.

(** Nothing resolves. *)
Definition geo_none (q : str) : option (Location Z) := None.

(** * Properties *)

(** ** Searching, splitting and replacing *)

Section StringFacts.

Implicit Types (sep old new cur s t : str) (c x : char).

Lemma startswith_single c x s : startswith [c] (x :: s) = (c =? x)%N.
Proof. simpl. apply andb_true_r. Qed.

Lemma startswith_decompose sep s :
  startswith sep s = true -> s = sep ++ skipn (length sep) s.
Proof.
  revert s. induction sep as [|a sep IH]; intros [|b s]; simpl; try done.
  intros [Hab Hs]%andb_true_iff. apply N.eqb_eq in Hab. subst b.
  f_equal. by apply IH.
Qed.

Lemma find_from_range sep s i :
  find_from sep s i = -1 \/ i <= find_from sep s i.
Proof.
  revert i. induction s as [|c s IH]; intros i; cbn [find_from].
  - destruct (startswith sep []); lia.
  - destruct (startswith sep (c :: s)); [lia|].
    destruct (IH (i + 1)); lia.
Qed.

Lemma find_from_occurs sep s i :
  0 <= i -> find_from sep s i = -1 <-> occurs sep s = false.
Proof.
  revert i. induction s as [|c s IH]; intros i Hi; cbn [find_from occurs].
  - destruct (startswith sep []); split; (done || lia).
  - destruct (startswith sep (c :: s)); simpl.
    + split; (done || lia).
    + apply IH. lia.
Qed.

Lemma find_not_found sep s : find sep s = -1 <-> occurs sep s = false.
Proof. by apply find_from_occurs. Qed.

Lemma find_zero sep s : find sep s = 0 <-> startswith sep s = true.
Proof.
  unfold find. destruct s as [|c s]; cbn [find_from].
  - destruct (startswith sep []); split; (done || lia).
  - destruct (startswith sep (c :: s)); [done|].
    destruct (find_from_range sep s (0 + 1)); split; (done || lia).
Qed.

Lemma truncate_at_absent sep s :
  occurs sep s = false -> truncate_at sep s = s.
Proof.
  induction s as [|c s IH]; cbn [occurs truncate_at]; [done|].
  intros [-> Hs]%orb_false_iff. by rewrite IH.
Qed.

Lemma truncate_at_elem x sep s : x ∈ truncate_at sep s -> x ∈ s.
Proof.
  induction s as [|c s IH]; cbn [truncate_at]; [done|].
  destruct (startswith sep (c :: s)).
  - by intros ?%elem_of_nil.
  - rewrite !elem_of_cons. tauto.
Qed.

Lemma truncate_at_single c s : c ∉ truncate_at [c] s.
Proof.
  induction s as [|x s IH]; cbn [truncate_at].
  - apply not_elem_of_nil.
  - rewrite startswith_single. destruct (c =? x)%N eqn:E.
    + apply not_elem_of_nil.
    + apply N.eqb_neq in E. rewrite elem_of_cons. tauto.
Qed.

Lemma occurs_single c s : occurs [c] s = false <-> c ∉ s.
Proof.
  induction s as [|x s IH]; cbn [occurs].
  - split; [intros _; apply not_elem_of_nil | done].
  - rewrite startswith_single, orb_false_iff, IH, not_elem_of_cons, N.eqb_neq.
    tauto.
Qed.

(** The first piece of a split is the text before the first separator. *)
Lemma split_go_first sep cur s :
  nth 0 (split_go sep 0 cur s) [] = rev cur ++ truncate_at sep s.
Proof.
  revert cur. induction s as [|c s IH]; intros cur;
    cbn [split_go truncate_at].
  - simpl. by rewrite app_nil_r.
  - destruct (startswith sep (c :: s)).
    + simpl. by rewrite app_nil_r.
    + rewrite IH. simpl. by rewrite <- app_assoc.
Qed.

Lemma split_first sep s : nth 0 (split sep s) [] = truncate_at sep s.
Proof. apply split_go_first. Qed.

Lemma split_go_skip sep cur a s :
  split_go sep (length a) cur (a ++ s) = split_go sep 0 cur s.
Proof. induction a as [|x a IH]; simpl; [done | apply IH]. Qed.

Lemma split_go_absent sep cur s :
  after_first sep s = None -> split_go sep 0 cur s = [rev cur ++ s].
Proof.
  revert cur. induction s as [|c s IH]; intros cur;
    cbn [split_go after_first].
  - by rewrite app_nil_r.
  - destruct (startswith sep (c :: s)); [done|].
    intros Hs. rewrite (IH _ Hs). simpl. by rewrite <- app_assoc.
Qed.

Lemma split_go_present sep cur s rest :
  sep <> [] -> after_first sep s = Some rest ->
  split_go sep 0 cur s
  = (rev cur ++ truncate_at sep s) :: split_go sep 0 [] rest.
Proof.
  intros Hsep. revert cur.
  induction s as [|c s IH]; intros cur;
    cbn [split_go after_first truncate_at]; [done|].
  destruct (startswith sep (c :: s)) eqn:E.
  - intros [= <-]. rewrite app_nil_r. f_equal.
    apply startswith_decompose in E.
    destruct sep as [|a sep]; [done|].
    cbn [length skipn] in *. injection E as -> E.
    assert (S (length sep) - 1 = length sep)%nat as -> by lia.
    rewrite E at 1. apply split_go_skip.
  - intros Hs. rewrite (IH _ Hs). simpl. by rewrite <- app_assoc.
Qed.

Lemma split_go_nonempty sep k cur s : split_go sep k cur s <> [].
Proof.
  revert k cur. induction s as [|c s IH]; intros k cur; cbn [split_go];
    [done|].
  destruct k; [|apply IH]. destruct (startswith sep (c :: s)); [done|].
  apply IH.
Qed.

(** The second piece of a split: what follows the first separator, up to
    the next one. *)
Lemma split_second sep s rest :
  sep <> [] -> after_first sep s = Some rest ->
  split sep s !! 1%nat = Some (truncate_at sep rest).
Proof.
  intros Hsep Hs. unfold split. rewrite (split_go_present _ _ _ _ Hsep Hs).
  cbn [lookup list_lookup]. pose proof (split_go_first sep [] rest) as H.
  destruct (split_go sep 0 [] rest) as [|p ps] eqn:E.
  - by apply split_go_nonempty in E.
  - simpl in H. by rewrite H.
Qed.

Lemma split_second_absent sep s :
  after_first sep s = None -> split sep s !! 1%nat = None.
Proof. intros Hs. unfold split. by rewrite (split_go_absent _ _ _ Hs). Qed.

Lemma after_first_decompose sep s rest :
  after_first sep s = Some rest -> s = truncate_at sep s ++ sep ++ rest.
Proof.
  induction s as [|c s IH]; cbn [after_first truncate_at]; [done|].
  destruct (startswith sep (c :: s)) eqn:E.
  - intros [= <-]. by apply startswith_decompose.
  - intros Hs. simpl. f_equal. by apply IH.
Qed.

Lemma replace_absent old new s :
  occurs old s = false -> replace old new s = s.
Proof.
  unfold replace. induction s as [|c s IH]; cbn [occurs replace_go]; [done|].
  intros [-> Hs]%orb_false_iff. by rewrite IH.
Qed.

Lemma replace_single c s : replace [c] [] s = remove_char c s.
Proof.
  unfold replace, remove_char.
  induction s as [|x s IH]; cbn [replace_go List.filter]; [done|].
  rewrite startswith_single, (N.eqb_sym x c).
  destruct (c =? x)%N; simpl; by rewrite IH.
Qed.

Lemma remove_char_elem x c s : x ∈ remove_char c s -> x ∈ s /\ x <> c.
Proof.
  unfold remove_char. rewrite !list_elem_of_In, filter_In.
  intros [? E%negb_true_iff%N.eqb_neq]. done.
Qed.

Lemma remove_char_absent c s : c ∉ s -> remove_char c s = s.
Proof.
  unfold remove_char. induction s as [|x s IH]; simpl; [done|].
  rewrite not_elem_of_cons. intros [Hx Hs].
  apply not_eq_sym, N.eqb_neq in Hx. rewrite Hx. simpl. by rewrite IH.
Qed.

End StringFacts.

(** ** The Field Cleaner *)

Section CleanText.

Implicit Types (x y t : str).

(** A split guarded by [find(..) != -1] is a truncation. *)
Lemma guarded_split m t :
  (if negb (find m t =? -1) then nth 0 (split m t) [] else t)
  = truncate_at m t.
Proof.
  rewrite split_first. destruct (find m t =? -1) eqn:E; simpl; [|done].
  apply Z.eqb_eq, find_not_found in E. by rewrite truncate_at_absent.
Qed.

(** The split guarded by the truth value of [find(..)] is skipped exactly
    when the text starts with the marker. *)
Lemma truthy_split m t :
  (if truthy (find m t) then nth 0 (split m t) [] else t)
  = if startswith m t then t else truncate_at m t.
Proof.
  rewrite split_first. unfold truthy.
  destruct (find m t =? 0) eqn:E; simpl.
  - apply Z.eqb_eq, find_zero in E. by rewrite E.
  - destruct (startswith m t) eqn:S; [|done].
    apply find_zero in S. rewrite S in E. done.
Qed.

(** What [clean_text] computes. *)
Lemma clean_text_eq x :
  clean_text x
  = remove_char 10%N
      (truncate_at FORMERLY
         (truncate_at LBRACKET
            (if startswith DIAMOND (replace NBSP [] (strip x))
             then replace NBSP [] (strip x)
             else truncate_at DIAMOND (replace NBSP [] (strip x))))).
Proof.
  unfold clean_text. cbv zeta.
  rewrite !guarded_split, truthy_split. apply replace_single.
Qed.

(** X5: [clean_text] follows the six rules exactly on the texts that,
    once trimmed and freed of ['&nbsp'], do not start with the [' ♦']
    marker. *)
Lemma clean_text_rules x :
  clean_text x = clean_rules x
  <-> startswith DIAMOND (replace NBSP [] (strip x)) = false.
Proof.
  rewrite clean_text_eq. unfold clean_rules.
  destruct (startswith DIAMOND (replace NBSP [] (strip x))) eqn:E; [|done].
  split; [|done]. intros Heq. exfalso.
  pose proof (startswith_decompose _ _ E) as Ht.
  destruct (replace NBSP [] (strip x)) as [|a [|b t]]; try done.
  unfold DIAMOND in Ht. cbn in Ht. injection Ht as -> ->.
  cbn in Heq. done.
Qed.

Lemma clean_text_no_newline x : 10%N ∉ clean_text x.
Proof. rewrite clean_text_eq. by intros [_ ?]%remove_char_elem. Qed.

Lemma clean_text_no_bracket x : 91%N ∉ clean_text x.
Proof.
  rewrite clean_text_eq.
  intros [H%truncate_at_elem _]%remove_char_elem.
  by apply (truncate_at_single 91%N) in H.
Qed.

(** The texts [clean_text] leaves as they are. *)
Lemma clean_text_fixed y :
  strip y = y -> occurs NBSP y = false -> occurs DIAMOND y = false ->
  occurs FORMERLY y = false -> 91%N ∉ y -> 10%N ∉ y ->
  clean_text y = y.
Proof.
  intros Hstrip Hnbsp Hdia Hfor Hbr Hnl.
  rewrite clean_text_eq, Hstrip, (replace_absent _ _ _ Hnbsp).
  rewrite (truncate_at_absent _ _ Hdia).
  assert (truncate_at LBRACKET y = y) as Hy
    by by apply truncate_at_absent, occurs_single.
  destruct (startswith DIAMOND y);
    by rewrite Hy, (truncate_at_absent _ _ Hfor), remove_char_absent.
Qed.

End CleanText.

(** C2, as amended: cleaning a cleaned text changes nothing whenever the
    cleaned text has no surrounding whitespace and contains none of
    ['&nbsp'], [' ♦'] and [' (formerly)'] (it never contains ['['] or a
    newline). *)
Theorem clean_text_idempotent_on_settled (x : str) :
  strip (clean_text x) = clean_text x ->
  occurs NBSP (clean_text x) = false ->
  occurs DIAMOND (clean_text x) = false ->
  occurs FORMERLY (clean_text x) = false ->
  clean_text (clean_text x) = clean_text x.
Proof.
  intros. apply clean_text_fixed; auto using clean_text_no_bracket,
    clean_text_no_newline.
Qed.

Lemma clean_text_idempotent_on_settled_witness :
  clean_text (clean_text (lit "Stadium " ++ [9830%N] ++ lit "[3] (formerly)"))
  = clean_text (lit "Stadium " ++ [9830%N] ++ lit "[3] (formerly)").
Proof.
  apply (clean_text_idempotent_on_settled
           (lit "Stadium " ++ [9830%N] ++ lit "[3] (formerly)"));
    vm_compute; reflexivity.
Defined.

(** C2 as stated fails: a truncation exposes a trailing space, which the
    second pass trims. *)
Lemma clean_text_not_idempotent :
  clean_text (lit "a [1]") = lit "a "
  /\ clean_text (clean_text (lit "a [1]")) = lit "a"
  /\ clean_text (clean_text (lit "a [1]")) <> clean_text (lit "a [1]").
Proof. vm_compute. repeat split; done. Qed.

(** C3: the example of the specification holds, but a text that starts
    with the [' ♦'] marker after the first two rules is not truncated:
    [find] returns 0 there and the guard reads that as false. *)
Theorem clean_text_diamond_at_start :
  clean_text (lit "Stadium " ++ [9830%N] ++ lit "[3] (formerly)")
  = lit "Stadium"
  /\ clean_text (lit "&nbsp " ++ [9830%N] ++ lit "x")
     = [32%N; 9830%N; 120%N]
  /\ clean_rules (lit "&nbsp " ++ [9830%N] ++ lit "x") = [].
Proof. vm_compute. done. Qed.

(** ** The extract stage *)

Section Extract.

Lemma occurs_after_first sep s :
  sep <> [] -> occurs sep s = false <-> after_first sep s = None.
Proof.
  intros Hsep. induction s as [|c s IH]; cbn [occurs after_first].
  - by destruct sep.
  - destruct (startswith sep (c :: s)); simpl; [done | apply IH].
Qed.

(** The images entry, by cases on the image cell. *)
Lemma image_url_cases c :
  image_url c =
  match find_img c with
  | None => Ok NO_IMAGE_SENTINEL
  | Some im =>
      match src im with
      | None => Raise AttributeError
      | Some s =>
          match after_first DSLASH s with
          | Some rest => Ok (HTTPS ++ truncate_at DSLASH rest)
          | None => Raise IndexError
          end
      end
  end.
Proof.
  unfold image_url, getitem.
  destruct (find_img c) as [im|]; [|done].
  destruct (src im) as [s|]; [|done].
  destruct (after_first DSLASH s) as [rest|] eqn:E.
  - by rewrite (split_second DSLASH s rest).
  - by rewrite split_second_absent.
Qed.

Lemma image_url_ok c : image_cell_ok c = true -> exists u, image_url c = Ok u.
Proof.
  rewrite image_url_cases. unfold image_cell_ok.
  destruct (find_img c) as [im|]; [|by eauto].
  destruct (src im) as [s|]; [|done].
  destruct (after_first DSLASH s) as [rest|] eqn:E; [by eauto|].
  apply occurs_after_first in E; [|done]. by rewrite E.
Qed.

Lemma image_url_ok_inv c u : image_url c = Ok u -> image_cell_ok c = true.
Proof.
  rewrite image_url_cases. unfold image_cell_ok.
  destruct (find_img c) as [im|]; [|done].
  destruct (src im) as [s|]; [|done].
  destruct (after_first DSLASH s) as [rest|] eqn:E; [|done].
  intros _. destruct (occurs DSLASH s) eqn:O; [done|].
  apply occurs_after_first in O; [|done]. by rewrite O in E.
Qed.

(** The loop body on a row of seven cells or more. *)
Lemma row_values_seven i c0 c1 c2 c3 c4 c5 c6 rest :
  row_values i (c0 :: c1 :: c2 :: c3 :: c4 :: c5 :: c6 :: rest)
  = (image ← image_url c5;
     Ok {| rank := i;
           stadium := clean_text (text c0);
           capacity := capacity_text (text c1);
           region := clean_text (text c2);
           country := clean_text (text c3);
           city := clean_text (text c4);
           images := Some image;
           home_team := clean_text (text c6) |}).
Proof. unfold row_values. simpl. by destruct (image_url c5). Qed.

(** The loop body raises on a row of fewer than seven cells. *)
Lemma row_values_short i tds :
  (length tds < 7)%nat -> exists e, row_values i tds = Raise e.
Proof.
  intros Hlen.
  destruct tds as [|c0 [|c1 [|c2 [|c3 [|c4 [|c5 [|c6 rest]]]]]]];
    try (simpl in Hlen; lia); unfold row_values; simpl; eauto.
  destruct (image_url c5); simpl; eauto.
Qed.

Lemma row_values_inv i tds v :
  row_values i tds = Ok v ->
  row_ok tds = true /\ rank v = i
  /\ exists c1 c5 u,
       tds !! 1%nat = Some c1 /\ tds !! 5%nat = Some c5
       /\ capacity v = capacity_text (text c1)
       /\ image_url c5 = Ok u /\ images v = Some u.
Proof.
  destruct tds as [|c0 [|c1 [|c2 [|c3 [|c4 [|c5 [|c6 rest]]]]]]];
    try (intros Hv;
         match type of Hv with
         | row_values _ ?l = _ =>
             destruct (row_values_short i l ltac:(simpl; lia)) as [e He]
         end; rewrite He in Hv; done).
  rewrite row_values_seven. destruct (image_url c5) as [u|] eqn:E; [|done].
  simpl. intros [= <-]. unfold row_ok. simpl.
  rewrite (image_url_ok_inv _ _ E). split_and!; [done..|].
  exists c1, c5, u. by rewrite E.
Qed.

Lemma row_values_ok i tds :
  row_ok tds = true -> exists v, row_values i tds = Ok v.
Proof.
  unfold row_ok. intros [Hlen Himg]%andb_true_iff.
  apply Nat.leb_le in Hlen.
  destruct tds as [|c0 [|c1 [|c2 [|c3 [|c4 [|c5 [|c6 rest]]]]]]];
    try (simpl in Hlen; lia).
  simpl in Himg. destruct (image_url_ok _ Himg) as [u Hu].
  rewrite row_values_seven, Hu. simpl. eauto.
Qed.

(** The loop over well-formed rows: one record per row, ranked from the
    start of the range onward. *)
Lemma map_rows_ok (k : nat) rows :
  forallb row_ok rows = true ->
  exists recs,
    map_rows (Z.of_nat k) rows = Ok recs
    /\ length recs = length rows
    /\ rank <$> recs = Z.of_nat <$> seq k (length rows).
Proof.
  revert k. induction rows as [|tds rows IH]; intros k; simpl.
  - intros _. by exists [].
  - intros [Hr Hrows]%andb_true_iff.
    destruct (row_values_ok (Z.of_nat k) _ Hr) as [v Hv].
    destruct (row_values_inv _ _ _ Hv) as (_ & Hrank & _).
    destruct (IH (S k) Hrows) as (recs & Hrecs & Hlen & Hranks).
    exists (v :: recs). rewrite Hv. simpl.
    assert (Z.of_nat k + 1 = Z.of_nat (S k)) as -> by lia.
    rewrite Hrecs. cbn [mbind result_bind length fmap list_fmap seq].
    split_and!; [done | by rewrite Hlen |].
    rewrite Hrank. f_equal. exact Hranks.
Qed.

Lemma map_rows_ok_inv k rows recs :
  map_rows k rows = Ok recs -> forallb row_ok rows = true.
Proof.
  revert k recs. induction rows as [|tds rows IH]; intros k recs; simpl;
    [done|].
  destruct (row_values k tds) as [v|] eqn:Hv; [|done]. simpl.
  destruct (map_rows (k + 1) rows) as [recs'|] eqn:Hrecs; [|done].
  intros _. apply row_values_inv in Hv as [-> _]. simpl. eauto.
Qed.

(** One row the loop body raises on makes the whole loop raise. *)
Lemma map_rows_raise k rows j tds :
  rows !! j = Some tds ->
  (forall i, exists e, row_values i tds = Raise e) ->
  exists e, map_rows k rows = Raise e.
Proof.
  intros Hj Hraise. revert k j Hj.
  induction rows as [|r rows IH]; intros k [|j] Hj; simpl in *; try done.
  - injection Hj as ->. destruct (Hraise k) as [e ->]. simpl. eauto.
  - destruct (row_values k r); simpl; [|by eauto].
    destruct (IH (k + 1) j Hj) as [e ->]. simpl. eauto.
Qed.

(** The loop succeeds exactly on the tables whose data rows are all
    well-formed. *)
Lemma extract_rows_ok_iff header data :
  (exists recs, extract_rows (header :: data) = Ok recs)
  <-> forallb row_ok data = true.
Proof.
  unfold extract_rows. simpl. split.
  - intros [recs H]. by eapply map_rows_ok_inv.
  - intros H. destruct (map_rows_ok 1 _ H) as (recs & ? & _). eauto.
Qed.

End Extract.

(** C4, as amended: on a row of seven cells or more whose image cell
    holds an image element with a [src] that contains ['//'], the images
    entry is ["https://"] followed by the part of [src] after its first
    ['//'] up to the next ['//'], which is the whole remainder when the
    remainder holds no further ['//']; without an image element the entry
    is the sentinel ["NO_IMAGE"]. *)
Theorem images_entry (i : Z) (tds : tr) (c5 : td) :
  (7 <= length tds)%nat -> tds !! 5%nat = Some c5 ->
  (find_img c5 = None ->
   exists v, row_values i tds = Ok v /\ images v = Some NO_IMAGE_SENTINEL)
  /\ (forall im s rest,
        find_img c5 = Some im -> src im = Some s ->
        after_first DSLASH s = Some rest ->
        exists v, row_values i tds = Ok v
          /\ images v = Some (HTTPS ++ truncate_at DSLASH rest)
          /\ (occurs DSLASH rest = false -> images v = Some (HTTPS ++ rest))).
Proof.
  intros Hlen H5.
  destruct tds as [|c0 [|c1 [|c2 [|c3 [|c4 [|c5' [|c6 rest']]]]]]];
    try (simpl in Hlen; lia).
  injection H5 as ->. rewrite row_values_seven, image_url_cases. split.
  - intros ->. simpl. eauto.
  - intros im s rest -> -> ->. simpl. eexists. split_and!; [done..|].
    intros Hrest. by rewrite truncate_at_absent.
Qed.

Lemma images_entry_witness :
  exists v, row_values 1 row_a = Ok v
    /\ images v = Some (lit "https://upload.example.org/a.jpg").
Proof.
  destruct (images_entry 1 row_a (pic "//upload.example.org/a.jpg")
              ltac:(simpl; lia) eq_refl) as [_ H].
  destruct (H {| src := Some (lit "//upload.example.org/a.jpg") |}
              (lit "//upload.example.org/a.jpg")
              (lit "upload.example.org/a.jpg")
              eq_refl eq_refl eq_refl) as (v & Hv & _ & Himg).
  exists v. split; [exact Hv | exact (Himg eq_refl)].
Defined.

(** C4 as stated fails on a [src] with a second ['//']: the entry stops
    there and is not the entire remainder. *)
Lemma second_slashes_cut_image_url :
  after_first DSLASH (lit "//a.org/x//y.jpg") = Some (lit "a.org/x//y.jpg")
  /\ images <$> (match row_values 1 row_two_slashes with
                 | Ok v => Some v
                 | Raise _ => None
                 end)
     = Some (Some (lit "https://a.org/x"))
  /\ lit "https://a.org/x" <> HTTPS ++ lit "a.org/x//y.jpg".
Proof. vm_compute. repeat split; done. Qed.

(** ** The transform stage *)

Section TransformFacts.

Context {F : Type} `{EqDecision F}.
Variable geocode : str -> option (Location F).

Lemma mapM_Ok {A B : Type} (f : A -> result B) l k :
  mapM f l = Ok k <-> Forall2 (fun x y => f x = Ok y) l k.
Proof.
  revert k. induction l as [|x l IH]; intros k; simpl.
  - split; [intros [= <-]; constructor | by inversion 1].
  - destruct (f x) as [y|e] eqn:Hx; simpl.
    + destruct (mapM f l) as [k'|e] eqn:Hl; simpl.
      * split.
        -- intros [= <-]. constructor; [done | by apply IH].
        -- inversion 1 as [|? y' ? k'' Hy Hk]; subst.
           apply IH in Hk.
           assert (y = y') as -> by congruence.
           assert (k' = k'') as -> by congruence. done.
      * split; [done|]. inversion 1 as [|? y' ? k'' Hy Hk]; subst.
        apply IH in Hk. congruence.
    + split; [done|]. inversion 1; congruence.
Qed.

Lemma frame_rows data df :
  astype_frame geocode data = Ok df
  <-> Forall2 (fun x r => exists cap,
                 astype_int (capacity x) = Ok cap
                  /\ r = frame_row geocode x cap)
        data df.
Proof.
  unfold astype_frame. rewrite mapM_Ok, !Forall2_fmap_l.
  split; intros Hf; (eapply Forall2_impl; [exact Hf|]); intros x r;
    unfold set_capacity, set_images, attach_location, frame_row, primary;
    simpl; destruct (astype_int (capacity x)) as [cap|e]; simpl.
  - intros [= <-]. eauto.
  - done.
  - by intros (? & [= <-] & ->).
  - by intros (? & ? & _).
Qed.

Lemma loc_fmap {R : Type} (f : R -> R) (l : list (nat * R)) i :
  loc (prod_map id f <$> l) i = f <$> loc l i.
Proof.
  induction l as [|[j r] l IH]; simpl; [done|].
  by destruct (j =? i)%nat.
Qed.

Lemma loc_select_go {R : Type} k mask (df : list R) i :
  loc (select_go k mask df) i =
  if decide (k <= i)%nat
  then match mask !! (i - k)%nat, df !! (i - k)%nat with
       | Some true, Some r => Some r
       | _, _ => None
       end
  else None.
Proof.
  revert k df. induction mask as [|b mask IH]; intros k [|r df]; simpl.
  - by case_decide.
  - by case_decide.
  - case_decide; [|done]. by destruct ((b :: mask) !! (i - k)%nat) as [[]|].
  - assert (loc ((if b then [(k, r)] else []) ++ select_go (S k) mask df) i
            = if b && (k =? i)%nat then Some r
              else loc (select_go (S k) mask df) i) as ->.
    { destruct b; simpl; [|done]. by destruct (k =? i)%nat. }
    rewrite IH. destruct (decide (k = i)) as [->|Hne].
    + rewrite Nat.eqb_refl, Nat.sub_diag, andb_true_r. simpl.
      destruct b; repeat case_decide; (done || lia).
    + apply Nat.eqb_neq in Hne as Hne'. rewrite Hne', andb_false_r.
      repeat case_decide; try (done || lia).
      assert (i - k = S (i - S k))%nat as -> by lia. done.
Qed.

Lemma update_lookup {I : Type} (df : list (series F Z I)) other i :
  update df other !! i =
  (fun this =>
     let row := match loc other i with
                | Some that => update_row this that
                | None => this
                end in
     if existsb (fun jr => (jr.1 <? length df)%nat) other
     then as_float64 row else row) <$> df !! i.
Proof. unfold update. apply list_lookup_imap. Qed.

(** The selected rows all carry labels of the frame, so the frames share
    a row exactly when a row is selected. *)
Lemma select_go_shared {R : Type} (f : R -> R) k mask (df : list R) n :
  length mask = length df -> (k + length df <= n)%nat ->
  existsb (fun jr : nat * R => (jr.1 <? n)%nat)
    (prod_map id f <$> select_go k mask df)
  = existsb id mask.
Proof.
  revert k df. induction mask as [|b mask IH]; intros k [|r df]; simpl;
    try done.
  intros [= Hlen] Hk. rewrite fmap_app, existsb_app, (IH (S k)); [|done|lia].
  f_equal. destruct b; simpl; [|done].
  rewrite orb_false_r. apply Nat.ltb_lt. lia.
Qed.

Lemma duplicated_go_length {A : Type} `{EqDecision A} (seen col : list A) :
  length (duplicated_go seen col) = length col.
Proof.
  revert seen. induction col as [|v col IH]; intros seen; simpl; [done|].
  by rewrite IH.
Qed.

Lemma frame_locations data df :
  Forall2 (fun x r => exists cap,
             astype_int (capacity x) = Ok cap
             /\ r = frame_row geocode x cap) data df ->
  s_location <$> df = primary geocode <$> data.
Proof.
  induction 1 as [|x r data df (cap & _ & ->) _ IH]; [done|].
  cbn [fmap list_fmap]. f_equal. exact IH.
Qed.

(** A value is marked exactly when it was seen before. *)
Lemma duplicated_go_spec {A : Type} `{EqDecision A} (seen col : list A) i v :
  col !! i = Some v ->
  exists b, duplicated_go seen col !! i = Some b
    /\ (b = true <->
        v ∈ seen \/ exists j, (j < i)%nat /\ col !! j = Some v).
Proof.
  revert seen i. induction col as [|a col IH]; intros seen [|i] Hi;
    simpl in *; try done.
  - injection Hi as ->. eexists. split; [done|].
    rewrite bool_decide_eq_true. split; [tauto|].
    intros [?|(j & ? & _)]; [done | lia].
  - destruct (IH (a :: seen) i Hi) as (b & -> & Hb).
    exists b. split; [done|]. rewrite Hb, elem_of_cons. split.
    + intros [[->|?]|(j & ? & ?)];
        [right; exists 0%nat | tauto | right; exists (S j)];
        (split; [lia|done]).
    + intros [?|([|j] & ? & Hj)]; [tauto | left; left | right; exists j].
      * simpl in Hj. congruence.
      * split; [lia | done].
Qed.

Lemma duplicated_spec {A : Type} `{EqDecision A} (col : list A) i v :
  col !! i = Some v ->
  exists b, duplicated col !! i = Some b
    /\ (b = true <-> exists j, (j < i)%nat /\ col !! j = Some v).
Proof.
  intros Hi. destruct (duplicated_go_spec [] col i v Hi) as (b & Hb & Hiff).
  exists b. split; [done|]. rewrite Hiff. split; [|tauto].
  by intros [?%elem_of_nil|?].
Qed.

(** Up to 2^53 every integer is a float64. *)
Lemma float64_of_int_small z : Z.abs z <= 2 ^ 53 -> float64_of_int z = z.
Proof.
  intros Hz. unfold float64_of_int.
  destruct (Z.eq_dec (Z.abs z) (2 ^ 53)) as [Heq|Hne].
  - assert (z = 2 ^ 53 \/ z = - 2 ^ 53) as [-> | ->] by lia; by vm_compute.
  - assert (Z.log2 (Z.abs z) - 52 <= 0) as He.
    { destruct (Z.eq_dec (Z.abs z) 0) as [->|Hnz]; [done|].
      assert (Z.log2 (Z.abs z) < 53); [|lia].
      apply Z.log2_lt_pow2; lia. }
    apply Z.leb_le in He. cbv zeta. by rewrite He.
Qed.

(** The frame the stage pushes, as a function of the frame built by its
    first three statements. *)
Lemma transform_inv data out :
  transform geocode data = Ok out ->
  exists df,
    data <> []
    /\ Forall2 (fun x r => exists cap,
                  astype_int (capacity x) = Ok cap
                  /\ r = frame_row geocode x cap)
         data df
    /\ out = resolve_duplicates geocode df.
Proof.
  unfold transform. destruct data as [|x0 data]; [done|].
  destruct (astype_frame geocode (x0 :: data)) as [df|e] eqn:Hdf; [|done].
  simpl. intros [= <-]. exists df. split_and!; [done | | done].
  by apply frame_rows.
Qed.

(** The stage succeeds on every non-empty record list whose capacities
    read as integers, whatever the geocoder answers. *)
Lemma transform_ok data :
  data <> [] ->
  Forall (fun x => exists cap, astype_int (capacity x) = Ok cap) data ->
  exists out, transform geocode data = Ok out.
Proof.
  intros Hne Hcap.
  assert (exists df, Forall2 (fun x r => exists cap,
            astype_int (capacity x) = Ok cap
                  /\ r = frame_row geocode x cap) data df)
    as [df Hdf].
  { clear Hne. induction Hcap as [|x l [cap Hx] _ [df IH]].
    - exists []. constructor.
    - exists (frame_row geocode x cap :: df). constructor; eauto. }
  apply frame_rows in Hdf. unfold transform.
  destruct data; [done|]. rewrite Hdf. simpl. eauto.
Qed.

Lemma transform_length data out :
  transform geocode data = Ok out -> length out = length data.
Proof.
  intros (df & _ & Hdf & ->)%transform_inv.
  unfold resolve_duplicates, update. rewrite length_imap. symmetry.
  by eapply Forall2_length.
Qed.

(** Each row of the pushed frame: a record flagged as a duplicate takes
    the answer to its city query when there is one, and the capacities go
    through float64 when the pass has a row. *)
Lemma transform_lookup data out i x :
  transform geocode data = Ok out -> data !! i = Some x ->
  exists cap b,
    astype_int (capacity x) = Ok cap
    /\ (b = true <->
        exists j y, (j < i)%nat /\ data !! j = Some y
                    /\ primary geocode y = primary geocode x)
    /\ out !! i =
       Some (set_location
               (if b then match secondary geocode x with
                          | Some l => Some l
                          | None => primary geocode x
                          end
                else primary geocode x)
               (frame_row geocode x
                  (if has_duplicate geocode data then float64_of_int cap
                   else cap))).
Proof.
  intros (df & _ & Hdf & ->)%transform_inv Hi.
  destruct (Forall2_lookup_l _ _ _ _ _ Hdf Hi) as (r & Hr & cap & Hcap & ->).
  pose proof (frame_locations data df Hdf) as Hlocs.
  assert ((s_location <$> df) !! i = Some (primary geocode x)) as Hloc
    by by rewrite list_lookup_fmap, Hr.
  destruct (duplicated_spec _ _ _ Hloc) as (b & Hb & Hiff).
  exists cap, b. split_and!; [done | |].
  - rewrite Hiff. split.
    + intros (j & Hlt & Hj). rewrite list_lookup_fmap in Hj.
      destruct (df !! j) as [r|] eqn:Hrj; [|done].
      destruct (Forall2_lookup_r _ _ _ _ _ Hdf Hrj)
        as (y & Hy & cap' & _ & ->).
      exists j, y. split_and!; [done..|]. by injection Hj.
    + intros (j & y & Hlt & Hy & Heq). exists j. split; [done|].
      destruct (Forall2_lookup_l _ _ _ _ _ Hdf Hy)
        as (r & Hrj & cap' & _ & ->).
      by rewrite list_lookup_fmap, Hrj, <- Heq.
  - unfold resolve_duplicates. rewrite update_lookup, Hr, loc_fmap.
    unfold select. rewrite select_go_shared;
      [|unfold duplicated; by rewrite duplicated_go_length, length_fmap
       |simpl; lia].
    rewrite loc_select_go, Nat.sub_0_r, Hb, Hr.
    unfold has_duplicate. rewrite <- Hlocs.
    case_decide; [|lia]. cbn [fmap option_fmap option_map].
    destruct b, (existsb id (duplicated (s_location <$> df)));
      unfold update_row, as_float64, set_location, frame_row, secondary;
      simpl; try done;
      by destruct (get_lat_long geocode (country x) (city x)).
Qed.

(** The pass has a row exactly when two records collide. *)
Lemma has_duplicate_spec data :
  has_duplicate geocode data = true
  <-> exists i j x y, (j < i)%nat /\ data !! i = Some x /\ data !! j = Some y
                      /\ primary geocode y = primary geocode x.
Proof.
  unfold has_duplicate. rewrite existsb_exists. split.
  - intros (b & Hin & Hb). unfold id in Hb. subst b.
    apply list_elem_of_In, list_elem_of_lookup in Hin as [i Hi].
    assert (is_Some ((primary geocode <$> data) !! i)) as [v Hv].
    { apply lookup_lt_is_Some. apply lookup_lt_Some in Hi.
      unfold duplicated in Hi. by rewrite duplicated_go_length in Hi. }
    destruct (duplicated_spec _ _ _ Hv) as (b & Hb & Hiff).
    rewrite Hi in Hb. injection Hb as <-.
    destruct Hiff as [Hiff _]. destruct (Hiff eq_refl) as (j & Hlt & Hj).
    rewrite list_lookup_fmap in Hv, Hj.
    destruct (data !! i) as [x|] eqn:Hx; [|done].
    destruct (data !! j) as [y|] eqn:Hy; [|done].
    exists i, j, x, y. split_and!; [done..|]. simpl in *. congruence.
  - intros (i & j & x & y & Hlt & Hx & Hy & Heq).
    assert ((primary geocode <$> data) !! i = Some (primary geocode x)) as Hv
      by by rewrite list_lookup_fmap, Hx.
    destruct (duplicated_spec _ _ _ Hv) as (b & Hb & Hiff).
    exists b. split.
    + apply list_elem_of_In, list_elem_of_lookup. eauto.
    + apply Hiff. exists j. split; [done|].
      rewrite list_lookup_fmap, Hy. simpl. by rewrite Heq.
Qed.

End TransformFacts.

Example extract_table_ok : extract_rows table_ok = Ok data_ok.
Proof. vm_compute. reflexivity. Qed.




(** C5: a data row of fewer than seven cells fails the whole extract
    stage: no status is returned, the store is left as it was, and the log
    gains the 'could not get rows' error. *)
Theorem extract_all_or_nothing {F : Type} (w : world F) (rows : list tr)
    (i : nat) (tds : tr) :
  (1 <= i)%nat -> rows !! i = Some tds -> (length tds < 7)%nat ->
  (extract_wikipedia_data (Some rows) w).1 = None
  /\ xcom (extract_wikipedia_data (Some rows) w).2 = xcom w
  /\ exists e,
       log (extract_wikipedia_data (Some rows) w).2
       = log w ++ [LogInfo "Rows retrieved";
                   LogError "could not get rows due to" e].
Proof.
  intros Hi Hrow Hlen.
  assert (exists e, extract_rows rows = Raise e) as [e He].
  { unfold extract_rows. apply (map_rows_raise _ _ (i - 1) tds).
    - rewrite lookup_drop. by assert (1 + (i - 1) = i)%nat as -> by lia.
    - intros k. by apply row_values_short. }
  unfold extract_wikipedia_data. rewrite He. simpl.
  split_and!; [done..|]. exists e. by rewrite <- app_assoc.
Qed.

Lemma extract_all_or_nothing_witness :
  (extract_wikipedia_data (Some table_short) w0).1 = None
  /\ xcom (extract_wikipedia_data (Some table_short) w0).2 = xcom w0
  /\ exists e,
       log (extract_wikipedia_data (Some table_short) w0).2
       = log w0 ++ [LogInfo "Rows retrieved";
                    LogError "could not get rows due to" e].
Proof.
  apply (extract_all_or_nothing w0 table_short 2 row_short);
    [lia | reflexivity | simpl; lia].
Defined.

(** C6: the image statement of the transform stage maps a missing value,
    the empty string and the sentinel to the placeholder URL and keeps
    every other string; the pushed frame holds these values. *)
Theorem image_fallback {F : Type} `{EqDecision F}
    (geocode : str -> option (Location F)) :
  image_or_placeholder None = NO_IMAGE
  /\ image_or_placeholder (Some []) = NO_IMAGE
  /\ image_or_placeholder (Some NO_IMAGE_SENTINEL) = NO_IMAGE
  /\ (forall s, s <> [] -> s <> NO_IMAGE_SENTINEL ->
                image_or_placeholder (Some s) = s)
  /\ (forall data out i x,
        transform geocode data = Ok out -> data !! i = Some x ->
        s_images <$> out !! i = Some (image_or_placeholder (images x))).
Proof.
  split_and!; [done..| |].
  - intros s Hs Hs'. unfold image_or_placeholder.
    by rewrite !bool_decide_eq_false_2.
  - intros data out i x Hout Hi.
    by destruct (transform_lookup geocode data out i x Hout Hi)
      as (cap & b & _ & _ & ->).
Qed.

Lemma image_fallback_witness :
  image_or_placeholder (Some (lit "https://upload.example.org/a.jpg"))
  = lit "https://upload.example.org/a.jpg"
  /\ s_images <$> out_city !! 1%nat = Some NO_IMAGE.
Proof.
  destruct (image_fallback geo_city) as (_ & _ & _ & Hkeep & Hframe).
  split.
  - apply Hkeep; vm_compute; discriminate.
  - apply (Hframe data_ok out_city 1%nat rec_b);
      [vm_compute; reflexivity | reflexivity].
Defined.

(** C7: the capacity entry of a record is the cleaned cell text without
    its commas and periods; the statement [astype(int)] of the transform
    stage puts into the frame the integer that [int()] reads from each
    entry, and the pushed frame holds that integer whenever it is at most
    2^53 in absolute value; so "90,000" gives 90000 and "1.234" gives
    1234. *)
Theorem capacity_parsing {F : Type} `{EqDecision F}
    (geocode : str -> option (Location F)) :
  (forall i tds v c1,
     row_values i tds = Ok v -> tds !! 1%nat = Some c1 ->
     capacity v
     = remove_char 46%N (remove_char 44%N (clean_text (text c1))))
  /\ (forall data df i x,
        astype_frame geocode data = Ok df -> data !! i = Some x ->
        exists cap, int_of_str (capacity x) = Some cap
                    /\ astype_int (capacity x) = Ok cap
                    /\ s_capacity <$> df !! i = Some cap)
  /\ (forall data out i x cap,
        transform geocode data = Ok out -> data !! i = Some x ->
        astype_int (capacity x) = Ok cap -> Z.abs cap <= 2 ^ 53 ->
        s_capacity <$> out !! i = Some cap)
  /\ astype_int (capacity_text (lit "90,000")) = Ok 90000
  /\ astype_int (capacity_text (lit "1.234")) = Ok 1234.
Proof.
  split_and!; [| | |done..].
  - intros i tds v c1 Hv H1.
    destruct (row_values_inv _ _ _ Hv)
      as (_ & _ & c1' & c5 & u & H1' & _ & -> & _).
    rewrite H1 in H1'. injection H1' as <-.
    unfold capacity_text. change COMMA with [44%N]. change PERIOD with [46%N].
    by rewrite !replace_single.
  - intros data df i x Hdf%frame_rows Hi.
    destruct (Forall2_lookup_l _ _ _ _ _ Hdf Hi) as (r & Hr & cap & Hcap & ->).
    exists cap. split_and!; [|done|by rewrite Hr].
    unfold astype_int in Hcap.
    destruct (int_of_str (capacity x)) as [z|]; [|done].
    destruct ((- 2 ^ 63 <=? z) && (z <? 2 ^ 63)); [|done]. congruence.
  - intros data out i x cap Hout Hi Hcap Hsmall.
    destruct (transform_lookup geocode data out i x Hout Hi)
      as (cap' & b & Hcap' & _ & ->).
    rewrite Hcap in Hcap'. injection Hcap' as <-. simpl.
    rewrite float64_of_int_small by done. by destruct (has_duplicate _ _).
Qed.

Lemma capacity_parsing_witness :
  (exists v, row_values 1 row_a = Ok v /\ capacity v = lit "90000")
  /\ s_capacity <$> frame_city !! 0%nat = Some 90000
  /\ s_capacity <$> out_city !! 0%nat = Some 90000.
Proof.
  destruct (capacity_parsing geo_city) as (Hrow & Hframe & Hout & _ & _).
  split_and!.
  - exists rec_a. split; [reflexivity|].
    exact (Hrow 1 row_a rec_a (cell "90,000") eq_refl eq_refl).
  - destruct (Hframe data_ok frame_city 0%nat rec_a)
      as (cap & _ & Hcap & Hdf); [vm_compute; reflexivity | reflexivity |].
    vm_compute in Hcap. injection Hcap as <-. exact Hdf.
  - apply (Hout data_ok out_city 0%nat rec_a 90000);
      [vm_compute; reflexivity | reflexivity | vm_compute; reflexivity
      | vm_compute; discriminate].
Defined.

(** C8, as amended: for every table of N+1 rows whose N data rows are all
    well-formed (seven cells or more, and an image cell without an image
    or with a [src] containing ['//']), the extract stage stores exactly N
    records whose ranks are 1, 2, ..., N in row order; the header row
    gives no record. *)
Theorem extract_ranks {F : Type} (w : world F) (header : tr)
    (data : list tr) :
  forallb row_ok data = true ->
  exists recs,
    extract_wikipedia_data (Some (header :: data)) w
    = (Some "OK"%string,
       xcom_push EXTRACT_TASK "rows" (Rows recs)
         (logging (LogInfo "Rows retrieved") w))
    /\ length recs = length data
    /\ rank <$> recs = Z.of_nat <$> seq 1 (length data).
Proof.
  intros Hok. destruct (map_rows_ok 1 data Hok) as (recs & Hrecs & Hlen & Hrk).
  exists recs. split_and!; [|done..].
  unfold extract_wikipedia_data, extract_rows.
  change (drop 1 (header :: data)) with data.
  change 1 with (Z.of_nat 1). by rewrite Hrecs.
Qed.

Lemma extract_ranks_witness :
  exists recs,
    extract_wikipedia_data (Some table_ok) w0
    = (Some "OK"%string,
       xcom_push EXTRACT_TASK "rows" (Rows recs)
         (logging (LogInfo "Rows retrieved") w0))
    /\ length recs = 2%nat
    /\ rank <$> recs = [1; 2].
Proof.
  apply (extract_ranks w0 header [row_a; row_b]). vm_compute. reflexivity.
Defined.

(** C8 as stated fails on a table with a malformed data row: of its two
    data rows no record at all is produced. *)
Lemma malformed_row_gives_no_records :
  length table_short = 3%nat
  /\ extract_rows table_short = Raise IndexError
  /\ (extract_wikipedia_data (Some table_short) w0).1 = None
  /\ ~ exists recs, extract_rows table_short = Ok recs /\ length recs = 2%nat.
Proof.
  split_and!; [vm_compute; reflexivity..|].
  intros (recs & Hrecs & _). vm_compute in Hrecs. discriminate.
Qed.

(** C9, as amended: [get_lat_long] returns the pair of the location the
    service resolves the query to, and [None] when it resolves nothing; a
    [None] does not fail the batch, and the record keeps its place with
    the null location attached; its location is still null in the pushed
    frame unless an earlier record has a null location too, which makes it
    a duplicate, and its (country, city) query resolves. *)
Theorem geocode_miss {F : Type} `{EqDecision F}
    (geocode : str -> option (Location F)) :
  (forall country city,
     get_lat_long geocode country city
     = (fun l => (latitude l, longitude l))
         <$> geocode (city ++ lit ", " ++ country))
  /\ (forall data,
        data <> [] ->
        Forall (fun x => exists cap, astype_int (capacity x) = Ok cap) data ->
        exists out,
          transform geocode data = Ok out
          /\ length out = length data
          /\ forall i x,
               data !! i = Some x -> primary geocode x = None ->
               s_location (attach_location geocode x) = None
               /\ exists r,
                    out !! i = Some r /\ s_rank r = rank x
                    /\ ((forall j y, (j < i)%nat -> data !! j = Some y ->
                                     primary geocode y <> None) ->
                        s_location r = None)
                    /\ (secondary geocode x = None -> s_location r = None)).
Proof.
  split.
  - intros country city. unfold get_lat_long. by destruct (geocode _).
  - intros data Hne Hcap.
    destruct (transform_ok geocode data Hne Hcap) as [out Hout].
    exists out. split_and!; [done | by eapply transform_length |].
    intros i x Hi Hx. split; [exact Hx|].
    destruct (transform_lookup geocode data out i x Hout Hi)
      as (cap & b & _ & Hb & ->).
    eexists. split_and!; [done..| |].
    + intros Hfirst. destruct b; simpl; [|done].
      destruct Hb as [Hb _]. destruct (Hb eq_refl) as (j & y & ? & ? & Hy).
      destruct (Hfirst j y); [done..|]. by rewrite Hy.
    + intros Hsec. simpl. rewrite Hsec. by destruct b.
Qed.

Lemma geocode_miss_witness :
  exists out,
    transform geo_none data_ok = Ok out
    /\ length out = 2%nat
    /\ s_location <$> out !! 1%nat = Some None.
Proof.
  destruct (geocode_miss geo_none) as [_ H].
  destruct (H data_ok) as (out & Hout & Hlen & Hrow).
  - discriminate.
  - repeat constructor; eexists; vm_compute; reflexivity.
  - exists out. split_and!; [exact Hout | exact Hlen |].
    destruct (Hrow 1%nat rec_b) as (_ & r & -> & _ & _ & Hnone);
      [reflexivity..|].
    simpl. f_equal. apply Hnone. reflexivity.
Defined.

(** C9 as stated fails for the second of two records the stadium query
    misses: it is a duplicate of the first, and the city query gives it
    coordinates. *)
Lemma second_miss_takes_city_location :
  transform geo_only_city data_ok = Ok out_only_city
  /\ primary geo_only_city rec_a = None
  /\ primary geo_only_city rec_b = None
  /\ s_location <$> out_only_city !! 1%nat = Some (Some (3, 4))
  /\ s_location <$> out_only_city !! 1%nat <> Some None.
Proof. vm_compute. repeat split; done. Qed.

(** C10: a missing value in the updating frame leaves the location as it
    was, so a duplicate whose (country, city) query does not resolve keeps
    its previous location. *)
Theorem duplicate_keeps_location_on_miss {F : Type} `{EqDecision F}
    (geocode : str -> option (Location F)) :
  (forall (this that : series F Z str),
     s_location that = None ->
     s_location (update_row this that) = s_location this)
  /\ (forall data out i x,
        transform geocode data = Ok out -> data !! i = Some x ->
        (exists j y, (j < i)%nat /\ data !! j = Some y
                     /\ primary geocode y = primary geocode x) ->
        secondary geocode x = None ->
        s_location <$> out !! i = Some (primary geocode x)).
Proof.
  split.
  - intros this that Hthat. simpl. by rewrite Hthat.
  - intros data out i x Hout Hi Hdup Hsec.
    destruct (transform_lookup geocode data out i x Hout Hi)
      as (cap & b & _ & Hb & ->).
    apply Hb in Hdup as ->. simpl. by rewrite Hsec.
Qed.

Lemma duplicate_keeps_location_on_miss_witness :
  s_location <$> out_collide !! 1%nat = Some (Some (1, 2)).
Proof.
  destruct (duplicate_keeps_location_on_miss geo_collide) as [_ H].
  apply (H data_ok out_collide 1%nat rec_b);
    [vm_compute; reflexivity | reflexivity | | vm_compute; reflexivity].
  exists 0%nat, rec_a. split; [lia | split; vm_compute; reflexivity].
Defined.

(** * Further properties *)

(** ** The Field Cleaner only deletes *)

Section Deleting.

Implicit Types (old sep s t x y : str) (c : char).

Lemma lstrip_suffix s :
  exists p, s = p ++ lstrip s /\ forallb isspace p = true.
Proof.
  induction s as [|c s (p & Hp & Hsp)]; simpl.
  - by exists [].
  - destruct (isspace c) eqn:E.
    + exists (c :: p). simpl. rewrite E, Hsp. split; [by f_equal | done].
    + by exists [].
Qed.

Lemma lstrip_sublist s : lstrip s `sublist_of` s.
Proof.
  destruct (lstrip_suffix s) as (p & Hp & _). rewrite Hp at 2.
  by apply sublist_inserts_l.
Qed.

Lemma rstrip_sublist s : rstrip s `sublist_of` s.
Proof.
  unfold rstrip. destruct (lstrip_suffix (rev s)) as (p & Hp & _).
  rewrite <- (rev_involutive s) at 2. rewrite Hp at 2. rewrite rev_app_distr.
  by apply sublist_inserts_r.
Qed.

Lemma strip_sublist s : strip s `sublist_of` s.
Proof. unfold strip. etrans; [apply rstrip_sublist | apply lstrip_sublist]. Qed.

Lemma replace_go_sublist old k s : replace_go old [] k s `sublist_of` s.
Proof.
  revert k. induction s as [|c s IH]; intros k; cbn [replace_go]; [done|].
  destruct k; [|by constructor].
  destruct (startswith old (c :: s)); simpl; by constructor.
Qed.

Lemma truncate_at_sublist sep s : truncate_at sep s `sublist_of` s.
Proof.
  induction s as [|c s IH]; cbn [truncate_at]; [done|].
  destruct (startswith sep (c :: s)); [apply sublist_nil_l | by constructor].
Qed.

Lemma remove_char_sublist c s : remove_char c s `sublist_of` s.
Proof.
  unfold remove_char. induction s as [|x s IH]; simpl; [done|].
  destruct (negb (x =? c)%N); by constructor.
Qed.

Lemma sublist_full {A : Type} (l1 l2 : list A) :
  l1 `sublist_of` l2 -> (length l2 <= length l1)%nat -> l1 = l2.
Proof.
  induction 1 as [|a l1 l2 _ IH|a l1 l2 Hsub _]; simpl; intros Hlen.
  - done.
  - f_equal. apply IH. lia.
  - apply sublist_length in Hsub. lia.
Qed.

(** Removing an occurrence shortens the text. *)
Lemma replace_shorter old s :
  old <> [] -> occurs old s = true ->
  (length (replace old [] s) < length s)%nat.
Proof.
  intros Hold. unfold replace.
  induction s as [|c s IH]; cbn [occurs replace_go].
  - by destruct old.
  - destruct (startswith old (c :: s)); simpl.
    + intros _. pose proof (sublist_length _ _
        (replace_go_sublist old (length old - 1) s)). lia.
    + intros Hs. apply IH in Hs. lia.
Qed.

Lemma replace_same old s :
  old <> [] -> replace old [] s = s -> occurs old s = false.
Proof.
  intros Hold Heq. destruct (occurs old s) eqn:E; [|done].
  pose proof (replace_shorter old s Hold E) as Hlt. rewrite Heq in Hlt. lia.
Qed.

Lemma truncate_at_same sep s :
  sep <> [] -> truncate_at sep s = s -> occurs sep s = false.
Proof.
  intros Hsep. induction s as [|c s IH]; cbn [truncate_at occurs].
  - by destruct sep.
  - destruct (startswith sep (c :: s)); [done|]. intros [= Hs]. by apply IH.
Qed.

Lemma remove_char_same c s : remove_char c s = s -> c ∉ s.
Proof.
  intros Heq Hin. rewrite <- Heq in Hin.
  by apply remove_char_elem in Hin as [_ ?].
Qed.

(** A trimmed text does not start with a space. *)
Lemma strip_same_lstrip s : strip s = s -> lstrip s = s.
Proof.
  intros Heq. apply sublist_full; [apply lstrip_sublist|].
  rewrite <- Heq at 1. apply sublist_length, rstrip_sublist.
Qed.

Lemma lstrip_same_head c s : lstrip (c :: s) = c :: s -> isspace c = false.
Proof.
  simpl. destruct (isspace c) eqn:E; [|done]. intros Heq.
  pose proof (sublist_length _ _ (lstrip_sublist s)) as Hlen.
  rewrite Heq in Hlen. simpl in Hlen. lia.
Qed.

Lemma strip_same_no_diamond_head s :
  strip s = s -> startswith DIAMOND s = false.
Proof.
  intros Hs%strip_same_lstrip. destruct s as [|c s]; [done|].
  apply lstrip_same_head in Hs. unfold DIAMOND. cbn [startswith].
  destruct (N.eqb_spec 32 c) as [<-|_]; [|done].
  vm_compute in Hs. discriminate.
Qed.

Lemma lstrip_spaces s : forallb isspace s = true -> lstrip s = [].
Proof.
  induction s as [|c s IH]; simpl; [done|].
  intros [-> Hs]%andb_true_iff. by apply IH.
Qed.

End Deleting.

(** X1: [clean_text] only deletes characters: its result is a subsequence
    of its argument, so it is never longer and holds no character the
    argument does not hold. *)
Theorem clean_text_deletes_only (x : str) :
  (clean_text x `sublist_of` x)
  /\ (length (clean_text x) <= length x)%nat
  /\ (forall c, c ∈ clean_text x -> c ∈ x).
Proof.
  assert (sublist (clean_text x) x) as Hsub.
  { rewrite clean_text_eq.
    etrans; [apply remove_char_sublist|].
    etrans; [apply truncate_at_sublist|].
    etrans; [apply truncate_at_sublist|].
    etrans; [|apply strip_sublist].
    etrans; [|apply (replace_go_sublist NBSP 0)].
    destruct (startswith DIAMOND _); [done | apply truncate_at_sublist]. }
  split_and!; [done | by apply sublist_length |].
  intros c. by apply sublist_subseteq.
Qed.

(** X2: whatever the argument, the result of [clean_text] holds no ['[']
    and no newline. *)
Theorem clean_text_never_bracket_or_newline (x : str) :
  (91%N ∉ clean_text x) /\ (10%N ∉ clean_text x).
Proof. split; [apply clean_text_no_bracket | apply clean_text_no_newline]. Qed.

(** A text [clean_text] returns unchanged is trimmed and holds no
    marker: every step but deletes, so none may delete anything. *)
Lemma clean_text_fixed_inv (y : str) :
  clean_text y = y ->
  strip y = y /\ occurs NBSP y = false /\ occurs DIAMOND y = false
  /\ occurs FORMERLY y = false /\ (91%N ∉ y) /\ (10%N ∉ y).
Proof.
  intros Hy.
  assert (y `sublist_of` clean_text y) as Hback by by rewrite Hy.
  rewrite clean_text_eq in Hback.
  pose proof (strip_sublist y) as S1.
  pose proof (replace_go_sublist NBSP 0 (strip y)) as S2.
  fold (replace NBSP [] (strip y)) in S2.
  set (r := replace NBSP [] (strip y)) in *.
  set (d := if startswith DIAMOND r then r else truncate_at DIAMOND r) in *.
  assert (d `sublist_of` r) as S3.
  { unfold d. destruct (startswith DIAMOND r); [done|].
    apply truncate_at_sublist. }
  pose proof (truncate_at_sublist LBRACKET d) as S4.
  pose proof (truncate_at_sublist FORMERLY (truncate_at LBRACKET d)) as S5.
  pose proof (remove_char_sublist 10%N
                (truncate_at FORMERLY (truncate_at LBRACKET d))) as S6.
  assert (strip y = y) as E1.
  { apply (anti_symm sublist); [done|].
    do 5 (etrans; [|eassumption]). done. }
  assert (r = y) as E2.
  { apply (anti_symm sublist); [by rewrite <- E1|].
    do 4 (etrans; [|eassumption]). done. }
  assert (d = y) as E3.
  { apply (anti_symm sublist); [by rewrite <- E2|].
    do 3 (etrans; [|eassumption]). done. }
  assert (truncate_at LBRACKET d = y) as E4.
  { apply (anti_symm sublist); [by rewrite <- E3|].
    do 2 (etrans; [|eassumption]). done. }
  assert (truncate_at FORMERLY (truncate_at LBRACKET d) = y) as E5.
  { apply (anti_symm sublist); [by rewrite <- E4|].
    etrans; [|eassumption]. done. }
  assert (remove_char 10%N y = y) as E6.
  { rewrite clean_text_eq in Hy. fold r in Hy. fold d in Hy.
    by rewrite E5 in Hy. }
  rewrite E4 in E5. rewrite E3 in E4.
  unfold d in E3. rewrite E2 in E3.
  rewrite (strip_same_no_diamond_head y E1) in E3.
  unfold r in E2. rewrite E1 in E2.
  split_and!; [done | by apply replace_same | by apply truncate_at_same
              | by apply truncate_at_same | | by apply remove_char_same].
  apply occurs_single. by apply truncate_at_same.
Qed.

(** X3: the texts [clean_text] returns unchanged are exactly the trimmed
    texts that hold none of ['&nbsp'], [' ♦'], ['['], [' (formerly)'] and
    newline. *)
Theorem clean_text_fixed_points (y : str) :
  clean_text y = y
  <-> strip y = y /\ occurs NBSP y = false /\ occurs DIAMOND y = false
      /\ occurs FORMERLY y = false /\ (91%N ∉ y) /\ (10%N ∉ y).
Proof.
  split; [apply clean_text_fixed_inv|].
  intros (? & ? & ? & ? & ? & ?). by apply clean_text_fixed.
Qed.

(** X4: cleaning twice gives the same as cleaning once exactly when the
    cleaned text is trimmed and holds none of ['&nbsp'], [' ♦'] and
    [' (formerly)']. *)
Theorem clean_text_idempotent_exactly (x : str) :
  clean_text (clean_text x) = clean_text x
  <-> strip (clean_text x) = clean_text x
      /\ occurs NBSP (clean_text x) = false
      /\ occurs DIAMOND (clean_text x) = false
      /\ occurs FORMERLY (clean_text x) = false.
Proof.
  split.
  - intros H%clean_text_fixed_inv. tauto.
  - intros (? & ? & ? & ?). apply clean_text_fixed;
      auto using clean_text_no_bracket, clean_text_no_newline.
Qed.

(** X6: a text of whitespace only, the empty text included, is cleaned to
    the empty text. *)
Theorem clean_text_of_whitespace (x : str) :
  forallb isspace x = true -> clean_text x = [].
Proof.
  intros Hx. rewrite clean_text_eq.
  assert (strip x = []) as ->.
  { unfold strip. by rewrite (lstrip_spaces x Hx). }
  done.
Qed.

Lemma clean_text_of_whitespace_witness :
  clean_text [32%N; 9%N; 10%N; 160%N] = [].
Proof. apply clean_text_of_whitespace. reflexivity. Defined.

(** X7: a text that, once trimmed, holds none of ['&nbsp'], [' ♦'], ['['],
    [' (formerly)'] and newline is only trimmed. *)
Theorem clean_text_plain (x : str) :
  occurs NBSP (strip x) = false -> occurs DIAMOND (strip x) = false ->
  occurs FORMERLY (strip x) = false -> 91%N ∉ strip x -> 10%N ∉ strip x ->
  clean_text x = strip x.
Proof.
  intros Hnbsp Hdia Hfor Hbr Hnl.
  rewrite clean_text_eq, (replace_absent _ _ _ Hnbsp).
  rewrite (truncate_at_absent _ _ Hdia).
  assert (truncate_at LBRACKET (strip x) = strip x) as Hy
    by by apply truncate_at_absent, occurs_single.
  destruct (startswith DIAMOND (strip x));
    by rewrite Hy, (truncate_at_absent _ _ Hfor), remove_char_absent.
Qed.

Lemma clean_text_plain_witness :
  clean_text (lit "  Camp Nou (Barcelona) ") = lit "Camp Nou (Barcelona)".
Proof.
  apply (clean_text_plain (lit "  Camp Nou (Barcelona) "));
    try (vm_compute; reflexivity);
    rewrite list_elem_of_In; vm_compute; intuition discriminate.
Defined.

(** ** The extract stage, from the request to the store *)

Section ExtractFacts.

Lemma extract_rows_ok_drop table :
  (exists recs, extract_rows table = Ok recs)
  <-> forallb row_ok (drop 1 table) = true.
Proof.
  unfold extract_rows. split.
  - intros [recs H]. by eapply map_rows_ok_inv.
  - intros H. destruct (map_rows_ok 1 _ H) as (recs & ? & _). eauto.
Qed.

(** Record [j] of the loop is the loop body on row [j], ranked by its
    place. *)
Lemma map_rows_lookup (k : nat) rows recs j tds :
  map_rows (Z.of_nat k) rows = Ok recs -> rows !! j = Some tds ->
  exists v, recs !! j = Some v
            /\ row_values (Z.of_nat (k + j)) tds = Ok v.
Proof.
  revert k recs j. induction rows as [|r rows IH]; intros k recs j; [done|].
  cbn [map_rows].
  destruct (row_values (Z.of_nat k) r) as [v|] eqn:Hv; [|done].
  assert (Z.of_nat k + 1 = Z.of_nat (S k)) as -> by lia.
  destruct (map_rows (Z.of_nat (S k)) rows) as [recs'|] eqn:Hrecs; [|done].
  simpl. intros [= <-]. destruct j as [|j]; simpl.
  - intros [= <-]. exists v. by rewrite Nat.add_0_r.
  - intros Hj. destruct (IH (S k) recs' j Hrecs Hj) as (v' & ? & Hv').
    exists v'. split; [done|].
    by assert (k + S j = S k + j)%nat as -> by lia.
Qed.

Lemma map_rows_elem k rows recs v :
  map_rows k rows = Ok recs -> v ∈ recs ->
  exists i tds, tds ∈ rows /\ row_values i tds = Ok v.
Proof.
  revert k recs. induction rows as [|r rows IH]; intros k recs; cbn [map_rows].
  - intros [= <-]. by intros ?%elem_of_nil.
  - destruct (row_values k r) as [v0|] eqn:Hv; [|done].
    destruct (map_rows (k + 1) rows) as [recs'|] eqn:Hrecs; [|done].
    simpl. intros [= <-]. rewrite elem_of_cons. intros [->|Hin].
    + exists k, r. split; [left | done].
    + destruct (IH _ _ Hrecs Hin) as (i & tds & ? & ?).
      exists i, tds. split; [by right | done].
Qed.

Lemma truncate_at_prefix sep s : exists q, s = truncate_at sep s ++ q.
Proof.
  induction s as [|c s [q Hq]]; cbn [truncate_at]; [by exists []|].
  destruct (startswith sep (c :: s)); [by eexists|].
  exists q. simpl. by f_equal.
Qed.

Lemma startswith_app sep s q :
  startswith sep s = true -> startswith sep (s ++ q) = true.
Proof.
  revert s. induction sep as [|a sep IH]; intros [|b s]; simpl; try done.
  intros [-> ?]%andb_true_iff. simpl. by apply IH.
Qed.

(** What is kept by a truncation holds no occurrence of the marker. *)
Lemma truncate_at_free sep s : sep <> [] -> occurs sep (truncate_at sep s) = false.
Proof.
  intros Hsep. induction s as [|c s IH]; cbn [truncate_at].
  - by destruct sep.
  - destruct (startswith sep (c :: s)) eqn:E; [by destruct sep|].
    cbn [occurs]. rewrite IH, orb_false_r.
    destruct (startswith sep (c :: truncate_at sep s)) eqn:E'; [|done].
    destruct (truncate_at_prefix sep s) as [q Hq].
    apply (startswith_app _ _ q) in E'. simpl in E'. rewrite <- Hq in E'.
    congruence.
Qed.

Lemma image_url_shape c u :
  image_url c = Ok u ->
  u <> []
  /\ (u = NO_IMAGE_SENTINEL
      \/ exists seg, u = HTTPS ++ seg /\ occurs DSLASH seg = false).
Proof.
  rewrite image_url_cases. destruct (find_img c) as [im|].
  - destruct (src im) as [s|]; [|done].
    destruct (after_first DSLASH s) as [rest|]; [|done].
    intros [= <-]. split; [done|]. right. eexists. split; [done|].
    by apply truncate_at_free.
  - intros [= <-]. split; [done | by left].
Qed.

End ExtractFacts.

(** X8: the extract stage returns "OK" exactly when the request got a
    response whose status is no 4xx or 5xx code, the page holds a matching
    table, and every row of the first such table after its header row is
    well-formed. *)
Theorem extract_stage_ok_iff {F : Type} (select_tables : str -> list (list tr))
    (o : http_outcome) (w : world F) :
  (extract_stage select_tables o w).1 = Some "OK"%string
  <-> exists status_code body table rest,
        o = Responded status_code body
        /\ (status_code < 400 \/ 600 <= status_code)
        /\ select_tables body = table :: rest
        /\ forallb row_ok (drop 1 table) = true.
Proof.
  unfold extract_stage, get_wikipedia_data, get_wikipedia_page, getitem.
  split.
  - destruct o as [sc body|]; [|done].
    destruct ((400 <=? sc) && (sc <? 600)) eqn:E; [done|].
    destruct (select_tables body) as [|table rest] eqn:Hsel; [done|].
    cbn. unfold extract_wikipedia_data.
    destruct (extract_rows table) as [recs|] eqn:Hrecs; [|done].
    intros _. exists sc, body, table, rest. split_and!; [done | | done |].
    + apply andb_false_iff in E as [E|E]; [left | right]; lia.
    + apply extract_rows_ok_drop. eauto.
  - intros (sc & body & table & rest & -> & Hsc & Hsel & Hok).
    assert ((400 <=? sc) && (sc <? 600) = false) as ->.
    { apply andb_false_iff. destruct Hsc; [left | right]; lia. }
    rewrite Hsel. cbn. unfold extract_wikipedia_data.
    apply extract_rows_ok_drop in Hok as [recs ->]. done.
Qed.

(** X9: the extract stage writes to the store under its own key only and
    only when it returns "OK"; it returns nothing else than "OK" or
    [None], and it never drops a log line. *)
Theorem extract_stage_store {F : Type} (select_tables : str -> list (list tr))
    (o : http_outcome) (w : world F) :
  (forall k, k <> (EXTRACT_TASK, "rows"%string) ->
             xcom (extract_stage select_tables o w).2 !! k = xcom w !! k)
  /\ ((extract_stage select_tables o w).1 = None
      /\ xcom (extract_stage select_tables o w).2 = xcom w
      \/ (extract_stage select_tables o w).1 = Some "OK"%string
         /\ exists recs,
              xcom (extract_stage select_tables o w).2
              = <[(EXTRACT_TASK, "rows"%string) := Rows recs]> (xcom w))
  /\ log w `prefix_of` log (extract_stage select_tables o w).2.
Proof.
  unfold extract_stage, get_wikipedia_data.
  set (w1 := logging (LogInfo "Data retrieved from page...") w).
  destruct (match get_wikipedia_page o with
            | Some html => getitem (select_tables html) 0
            | None => Raise TypeError
            end) as [table|e]; cbn; unfold extract_wikipedia_data.
  - destruct (extract_rows table) as [recs|e]; cbn.
    + split_and!.
      * intros k Hk. by rewrite lookup_insert_ne.
      * right. eauto.
      * rewrite <- app_assoc. by eexists.
    + split_and!; [done | by left |].
      rewrite <- !app_assoc. by eexists.
  - split_and!; [done | by left |].
    rewrite <- !app_assoc. by eexists.
Qed.

(** X10: a table of a header row only (or of no row at all) passes the
    extract stage, which stores an empty record list; the transform stage
    then raises on it. *)
Theorem header_only_table {F : Type} `{EqDecision F}
    (geocode : str -> option (Location F)) (table : list tr) (w : world F) :
  (length table <= 1)%nat ->
  extract_wikipedia_data (Some table) w
  = (Some "OK"%string,
     xcom_push EXTRACT_TASK "rows" (Rows [])
       (logging (LogInfo "Rows retrieved") w))
  /\ exists e,
       transform_wikipedia_data geocode
         (extract_wikipedia_data (Some table) w).2 = Raise e.
Proof.
  intros Hlen.
  assert (extract_rows table = Ok []) as Hrows.
  { unfold extract_rows. destruct table as [|h [|r table]]; try done.
    simpl in Hlen. lia. }
  unfold extract_wikipedia_data. rewrite Hrows. split; [done|].
  unfold transform_wikipedia_data, xcom_push. cbn [snd xcom].
  rewrite lookup_insert_eq. cbn. eauto.
Qed.

Lemma header_only_table_witness :
  extract_wikipedia_data (Some [header]) w0
  = (Some "OK"%string,
     xcom_push EXTRACT_TASK "rows" (Rows [])
       (logging (LogInfo "Rows retrieved") w0))
  /\ exists e,
       transform_wikipedia_data geo_none
         (extract_wikipedia_data (Some [header]) w0).2 = Raise e.
Proof. apply (header_only_table geo_none [header] w0). simpl. lia. Defined.

(** X11: the records come in row order: record [j] is the loop body on
    data row [j + 1] with rank [j + 1]. *)
Theorem extract_rows_in_order (table : list tr) (recs : list values)
    (j : nat) (tds : tr) :
  extract_rows table = Ok recs -> table !! S j = Some tds ->
  exists v, recs !! j = Some v
            /\ row_values (Z.of_nat (S j)) tds = Ok v
            /\ rank v = Z.of_nat (S j).
Proof.
  unfold extract_rows. change 1 with (Z.of_nat 1). intros Hrecs Hj.
  destruct (map_rows_lookup 1 (drop 1 table) recs j tds Hrecs)
    as (v & Hv & Hrow).
  { by rewrite lookup_drop. }
  exists v. split_and!; [done..|].
  by destruct (row_values_inv _ _ _ Hrow) as (_ & ? & _).
Qed.

Lemma extract_rows_in_order_witness :
  exists v, data_ok !! 1%nat = Some v
            /\ row_values 2 row_b = Ok v
            /\ rank v = 2.
Proof.
  apply (extract_rows_in_order table_ok data_ok 1 row_b);
    [vm_compute; reflexivity | reflexivity].
Defined.

(** X12: in every record the extract stage produces, the text entries
    hold no ['['] and no newline, the capacity entry moreover no comma and
    no period, and the images entry is a non-empty string: the sentinel, or
    ["https://"] followed by a text without ['//']. *)
Theorem extract_record_shape (table : list tr) (recs : list values)
    (v : values) :
  extract_rows table = Ok recs -> v ∈ recs ->
  (forall c, c = 91%N \/ c = 10%N ->
     (c ∉ stadium v) /\ (c ∉ capacity v) /\ (c ∉ region v)
     /\ (c ∉ country v) /\ (c ∉ city v) /\ (c ∉ home_team v))
  /\ (44%N ∉ capacity v) /\ (46%N ∉ capacity v)
  /\ exists u, images v = Some u /\ u <> []
       /\ (u = NO_IMAGE_SENTINEL
           \/ exists seg, u = HTTPS ++ seg /\ occurs DSLASH seg = false).
Proof.
  intros Hrecs Hin.
  destruct (map_rows_elem _ _ _ _ Hrecs Hin) as (i & tds & _ & Hv).
  destruct tds as [|c0 [|c1 [|c2 [|c3 [|c4 [|c5 [|c6 rest]]]]]]];
    try (match type of Hv with
         | row_values _ ?l = _ =>
             destruct (row_values_short i l ltac:(simpl; lia)) as [e He]
         end; rewrite He in Hv; done).
  rewrite row_values_seven in Hv.
  destruct (image_url c5) as [u|] eqn:Hu; [|done].
  cbn in Hv. injection Hv as <-. cbn [stadium capacity region country city
    images home_team].
  assert (forall c t, c = 91%N \/ c = 10%N -> c ∉ clean_text t) as Hclean.
  { intros c t [->| ->];
      [apply clean_text_no_bracket | apply clean_text_no_newline]. }
  assert (capacity_text (text c1)
          = remove_char 46%N (remove_char 44%N (clean_text (text c1)))) as ->.
  { unfold capacity_text. change COMMA with [44%N]. change PERIOD with [46%N].
    by rewrite !replace_single. }
  split_and!.
  - intros c Hc. split_and!; try by apply Hclean.
    intros [[H _]%remove_char_elem _]%remove_char_elem.
    by apply (Hclean c (text c1)).
  - by intros [[_ ?]%remove_char_elem _]%remove_char_elem.
  - by intros [_ ?]%remove_char_elem.
  - exists u. split; [done|]. by apply (image_url_shape c5).
Qed.

Lemma extract_record_shape_witness :
  (44%N ∉ capacity rec_a) /\ (46%N ∉ capacity rec_a).
Proof.
  destruct (extract_record_shape table_ok data_ok rec_a) as (_ & H1 & H2 & _);
    [vm_compute; reflexivity | left | done].
Defined.

(** X13: when the request fails or is answered with a 4xx or 5xx code, or
    the page holds no matching table, the extract stage returns [None],
    stores nothing, and logs both a 'could not get data' and a 'could not
    get rows' error (after the line 'Data retrieved from page...'). *)
Theorem extract_stage_without_table {F : Type}
    (select_tables : str -> list (list tr)) (o : http_outcome) (w : world F) :
  (get_wikipedia_page o = None
   \/ exists body, get_wikipedia_page o = Some body /\ select_tables body = []) ->
  exists e,
    extract_stage select_tables o w
    = (None,
       {| xcom := xcom w;
          log := log w ++ [LogInfo "Data retrieved from page...";
                           LogError "could not get data due to" e;
                           LogInfo "Rows retrieved";
                           LogError "could not get rows due to" TypeError] |}).
Proof.
  unfold extract_stage, get_wikipedia_data, extract_wikipedia_data, logging.
  intros [-> | (body & -> & Hsel)].
  - exists TypeError. cbn. by rewrite <- !app_assoc.
  - exists IndexError. unfold getitem. rewrite Hsel. cbn.
    by rewrite <- !app_assoc.
Qed.

Lemma extract_stage_without_table_witness :
  exists e,
    extract_stage (fun _ => []) (Responded 404 []) w0
    = (None,
       {| xcom := xcom w0;
          log := log w0 ++ [LogInfo "Data retrieved from page...";
                            LogError "could not get data due to" e;
                            LogInfo "Rows retrieved";
                            LogError "could not get rows due to" TypeError] |}).
Proof.
  apply (extract_stage_without_table (fun _ => []) (Responded 404 []) w0).
  left. reflexivity.
Defined.

(** ** The transform stage, record by record *)

Section TransformMore.

Context {F : Type} `{EqDecision F}.
Variable geocode : str -> option (Location F).

Lemma mapM_Raise {A B : Type} (f : A -> result B) l e :
  mapM f l = Raise e -> exists x, x ∈ l /\ f x = Raise e.
Proof.
  induction l as [|x l IH]; simpl; [done|].
  destruct (f x) as [y|e'] eqn:Hx; simpl.
  - destruct (mapM f l) as [k|e'] eqn:Hl; simpl; [done|].
    intros [= ->]. destruct (IH eq_refl) as (x' & ? & ?).
    exists x'. split; [by right | done].
  - intros [= ->]. exists x. split; [left | done].
Qed.

Lemma astype_int_raises s e :
  astype_int s = Raise e -> e = ValueError \/ e = OverflowError.
Proof.
  unfold astype_int. destruct (int_of_str s) as [z|]; [|intros [= <-]; tauto].
  destruct ((- 2 ^ 63 <=? z) && (z <? 2 ^ 63)); [done|]. intros [= <-]. tauto.
Qed.

Lemma astype_int_range s z :
  astype_int s = Ok z -> - 2 ^ 63 <= z < 2 ^ 63.
Proof.
  unfold astype_int. destruct (int_of_str s) as [z'|]; [|done].
  destruct ((- 2 ^ 63 <=? z') && (z' <? 2 ^ 63)) eqn:E; [|done].
  intros [= <-]. apply andb_true_iff in E as [?%Z.leb_le ?%Z.ltb_lt]. lia.
Qed.

(** Every row of the pushed frame stems from the record at its index. *)
Lemma transform_lookup_inv data out i r :
  transform geocode data = Ok out -> out !! i = Some r ->
  exists x, data !! i = Some x.
Proof.
  intros Hout Hr. apply transform_length in Hout.
  apply lookup_lt_Some in Hr. apply lookup_lt_is_Some. lia.
Qed.

Lemma transform_ranks data out :
  transform geocode data = Ok out -> s_rank <$> out = rank <$> data.
Proof.
  intros Hout. apply list_eq. intros i. rewrite !list_lookup_fmap.
  destruct (data !! i) as [x|] eqn:Hi.
  - by destruct (transform_lookup geocode data out i x Hout Hi)
      as (cap & b & _ & _ & ->).
  - apply transform_length in Hout. apply lookup_ge_None in Hi.
    rewrite (proj2 (lookup_ge_None out i)); [done | lia].
Qed.

Lemma astype_frame_raises data e :
  astype_frame geocode data = Raise e ->
  (e = ValueError \/ e = OverflowError)
  /\ exists x, x ∈ data /\ astype_int (capacity x) = Raise e.
Proof.
  unfold astype_frame. intros Hdf.
  apply mapM_Raise in Hdf as (r & Hr & He).
  apply list_elem_of_fmap in Hr as (r' & -> & Hr).
  apply list_elem_of_fmap in Hr as (x & -> & Hx).
  unfold set_capacity, set_images, attach_location in He. simpl in He.
  destruct (astype_int (capacity x)) as [cap|e'] eqn:Hcap; [done|].
  simpl in He. injection He as ->.
  split; [by eapply astype_int_raises | eauto].
Qed.

(** *** The service that may raise *)

Variable service : str -> result (option (Location F)).

Lemma mapM_pure {A B : Type} (f : A -> result B) (g : A -> B) l :
  (forall x, f x = Ok (g x)) -> mapM f l = Ok (g <$> l).
Proof.
  intros Hf. induction l as [|x l IH]; simpl; [done|].
  by rewrite Hf, IH.
Qed.

Lemma mapM_raises {A B : Type} (f : A -> result B) l x e :
  x ∈ l -> f x = Raise e -> exists e', mapM f l = Raise e'.
Proof.
  intros Hin Hx. induction Hin as [x l|x y l _ IH]; simpl.
  - rewrite Hx. simpl. eauto.
  - destruct (f y); simpl; [|by eauto].
    destruct (IH Hx) as [e' ->]. simpl. eauto.
Qed.

(** With a service that answers every query the two embeddings of the
    stage agree. *)
Lemma transform_raising_answers data :
  (forall q, service q = Ok (geocode q)) ->
  transform_raising service data = transform geocode data.
Proof.
  intros Hans. unfold transform_raising, transform.
  destruct data as [|x0 data]; [done|].
  assert (forall country city,
            get_lat_long_raising service country city
            = Ok (get_lat_long geocode country city)) as Hll.
  { intros country city. unfold get_lat_long_raising, get_lat_long.
    by rewrite Hans. }
  rewrite (mapM_pure _ (attach_location geocode)).
  2:{ intros x. unfold attach_location_raising. by rewrite Hll. }
  cbn [mbind result_bind]. fold (astype_frame geocode (x0 :: data)).
  destruct (astype_frame geocode (x0 :: data)) as [df|e]; [|done].
  cbn [mbind result_bind]. unfold resolve_duplicates.
  rewrite (mapM_pure _ (prod_map id
             (fun x => set_location
                         (get_lat_long geocode (s_country x) (s_city x)) x))).
  2:{ intros [j r]. simpl. by rewrite Hll. }
  done.
Qed.

(** An exception of the service on a stadium query ends the stage. *)
Lemma transform_raising_raises data x e :
  x ∈ data -> service (stadium x ++ lit ", " ++ country x) = Raise e ->
  exists e', transform_raising service data = Raise e'.
Proof.
  intros Hin Hx. unfold transform_raising.
  destruct data as [|x0 data]; [by apply elem_of_nil in Hin|].
  destruct (mapM_raises (attach_location_raising service) (x0 :: data) x e)
    as [e' ->]; [done | | by eexists].
  unfold attach_location_raising, get_lat_long_raising. by rewrite Hx.
Qed.

End TransformMore.

(** X14: with a geocoding service that answers every query, the
    transform of a record list succeeds exactly when the list is not
    empty and [int()] reads every capacity entry as an integer of the
    [int64] range; on a non-empty list it otherwise raises what a failing
    capacity raises, a [ValueError] or an [OverflowError].  When the
    service raises on the stadium query of a record, the transform
    raises. *)
Theorem transform_ok_iff {F : Type} `{EqDecision F}
    (geocode : str -> option (Location F))
    (service : str -> result (option (Location F))) (data : list values) :
  ((forall q, service q = Ok (geocode q)) ->
   ((exists out, transform_raising service data = Ok out)
    <-> data <> []
        /\ Forall (fun x => exists cap,
                     int_of_str (capacity x) = Some cap
                     /\ - 2 ^ 63 <= cap < 2 ^ 63) data)
   /\ (forall e, data <> [] -> transform_raising service data = Raise e ->
         (e = ValueError \/ e = OverflowError)
         /\ exists x, x ∈ data /\ astype_int (capacity x) = Raise e))
  /\ (forall x e,
        x ∈ data -> service (stadium x ++ lit ", " ++ country x) = Raise e ->
        exists e', transform_raising service data = Raise e').
Proof.
  split; [|intros x e; apply transform_raising_raises].
  intros Hans. rewrite (transform_raising_answers geocode service data Hans).
  split.
  - split.
    + intros [out Hout]. split.
      * intros ->. done.
      * apply Forall_lookup. intros i x Hi.
        destruct (transform_lookup geocode data out i x Hout Hi)
          as (cap & _ & Hcap & _). exists cap.
        split; [|by eapply astype_int_range].
        unfold astype_int in Hcap.
        destruct (int_of_str (capacity x)) as [z|]; [|done].
        destruct ((- 2 ^ 63 <=? z) && (z <? 2 ^ 63)); [|done]. congruence.
    + intros [Hne Hcap]. apply transform_ok; [done|].
      eapply Forall_impl; [exact Hcap|]. intros x (cap & Hint & Hrange).
      exists cap. unfold astype_int. rewrite Hint.
      assert ((- 2 ^ 63 <=? cap) && (cap <? 2 ^ 63) = true) as ->; [|done].
      apply andb_true_iff. split; [apply Z.leb_le | apply Z.ltb_lt]; lia.
  - intros e Hne. unfold transform. destruct data as [|x0 data]; [done|].
    destruct (astype_frame geocode (x0 :: data)) as [df|e'] eqn:Hdf; [done|].
    simpl. intros [= ->]. by apply astype_frame_raises in Hdf.
Qed.

Lemma transform_ok_iff_witness :
  (exists out, transform_raising svc_city data_ok = Ok out)
  /\ exists e', transform_raising svc_down data_ok = Raise e'.
Proof.
  split.
  - destruct (transform_ok_iff geo_city svc_city data_ok) as [H _].
    destruct H as [[_ H] _]; [reflexivity|]. apply H. split; [discriminate|].
    repeat constructor; eexists; (split; [vm_compute; reflexivity | lia]).
  - destruct (transform_ok_iff geo_city svc_down data_ok) as [_ H].
    apply (H rec_a GeocoderServiceError); [left | reflexivity].
Defined.



(** X16: in the frame the transform pushes no images value is empty and
    none is the sentinel ["NO_IMAGE"]. *)
Theorem transform_images_never_missing {F : Type} `{EqDecision F}
    (geocode : str -> option (Location F)) (data : list values)
    (out : list (series F Z str)) (r : series F Z str) :
  transform geocode data = Ok out -> r ∈ out ->
  s_images r <> [] /\ s_images r <> NO_IMAGE_SENTINEL.
Proof.
  intros Hout [i Hr]%list_elem_of_lookup.
  destruct (transform_lookup_inv geocode data out i r Hout Hr) as [x Hi].
  destruct (transform_lookup geocode data out i x Hout Hi)
    as (cap & b & _ & _ & Hr').
  rewrite Hr in Hr'. injection Hr' as ->. simpl.
  unfold image_or_placeholder. destruct (images x) as [s|]; [|done].
  destruct (bool_decide (s = NO_IMAGE_SENTINEL)) eqn:E1; [done|].
  destruct (bool_decide (s = [])) eqn:E2; [done|].
  apply bool_decide_eq_false in E1, E2. done.
Qed.

Lemma transform_images_never_missing_witness :
  exists r, out_city !! 1%nat = Some r
            /\ s_images r <> [] /\ s_images r <> NO_IMAGE_SENTINEL.
Proof.
  eexists. split; [reflexivity|].
  apply (transform_images_never_missing geo_city data_ok out_city);
    [vm_compute; reflexivity|].
  apply list_elem_of_lookup. exists 1%nat. reflexivity.
Defined.

(** X17: when no two records are geocoded to the same location by their
    stadium query (two misses count as the same location), the frame
    holds exactly these locations: the duplicate pass changes nothing.
    The first record keeps its location in any case. *)
Theorem transform_without_collisions {F : Type} `{EqDecision F}
    (geocode : str -> option (Location F)) (data : list values)
    (out : list (series F Z str)) :
  transform geocode data = Ok out ->
  (NoDup (primary geocode <$> data) ->
   s_location <$> out = primary geocode <$> data)
  /\ (forall x, data !! 0%nat = Some x ->
                s_location <$> out !! 0%nat = Some (primary geocode x)).
Proof.
  intros Hout. split.
  - intros Hnd. apply list_eq. intros i. rewrite !list_lookup_fmap.
    destruct (data !! i) as [x|] eqn:Hi.
    + destruct (transform_lookup geocode data out i x Hout Hi)
        as (cap & b & _ & Hb & ->).
      destruct b; [|done]. destruct Hb as [Hb _].
      destruct (Hb eq_refl) as (j & y & Hlt & Hj & Heq).
      assert (j = i); [|lia].
      apply (NoDup_lookup _ j i (primary geocode x) Hnd);
        rewrite list_lookup_fmap; [by rewrite Hj, <- Heq | by rewrite Hi].
    + apply transform_length in Hout. apply lookup_ge_None in Hi.
      rewrite (proj2 (lookup_ge_None out i)); [done | lia].
  - intros x Hx.
    destruct (transform_lookup geocode data out 0 x Hout Hx)
      as (cap & b & _ & Hb & ->).
    destruct b; [|done]. destruct Hb as [Hb _].
    destruct (Hb eq_refl) as (j & _ & ? & _). lia.
Qed.

Lemma transform_without_collisions_witness :
  s_location <$> out_apart = [Some (1, 2); Some (5, 6)]
  /\ s_location <$> out_apart !! 0%nat = Some (Some (1, 2)).
Proof.
  destruct (transform_without_collisions geo_apart data_ok out_apart)
    as [Hall Hfirst]; [vm_compute; reflexivity|].
  split.
  - apply Hall.
    change (NoDup [Some (1, 2); Some (5, 6)]).
    apply NoDup_cons. split; [|apply NoDup_singleton].
    intros [=]%list_elem_of_singleton.
  - apply (Hfirst rec_a). reflexivity.
Defined.

(** X18: every capacity in the pushed frame stems from the integer of
    the [int64] range that [int()] reads from its record's capacity entry:
    it is that integer when no two records collide, and the float64
    nearest to it when two do, which is the integer itself up to 2^53. *)
Theorem transform_capacity_int64 {F : Type} `{EqDecision F}
    (geocode : str -> option (Location F)) (data : list values)
    (out : list (series F Z str)) (i : nat) (r : series F Z str) :
  transform geocode data = Ok out -> out !! i = Some r ->
  exists x cap,
    data !! i = Some x
    /\ int_of_str (capacity x) = Some cap
    /\ - 2 ^ 63 <= cap < 2 ^ 63
    /\ s_capacity r
       = (if has_duplicate geocode data then float64_of_int cap else cap)
    /\ (Z.abs cap <= 2 ^ 53 -> s_capacity r = cap).
Proof.
  intros Hout Hr.
  destruct (transform_lookup_inv geocode data out i r Hout Hr) as [x Hi].
  destruct (transform_lookup geocode data out i x Hout Hi)
    as (cap & b & Hcap & _ & Hr').
  rewrite Hr in Hr'. injection Hr' as ->.
  cbn [s_capacity set_location frame_row].
  exists x, cap. split; [done|]. split.
  { unfold astype_int in Hcap.
    destruct (int_of_str (capacity x)) as [z|]; [|done].
    destruct ((- 2 ^ 63 <=? z) && (z <? 2 ^ 63)); [|done]. congruence. }
  split; [by eapply astype_int_range|]. split; [reflexivity|].
  intros Hsmall. rewrite float64_of_int_small by done.
  by destruct (has_duplicate _ _).
Qed.

Lemma transform_capacity_int64_witness :
  exists r, out_rounded !! 1%nat = Some r
            /\ s_capacity r = 9007199254740992.
Proof.
  eexists. split; [reflexivity|].
  edestruct (transform_capacity_int64 geo_city data_rounded out_rounded 1)
    as (x & cap & Hx & Hint & _ & Hcap & _);
    [vm_compute; reflexivity | reflexivity |].
  injection Hx as <-. vm_compute in Hint. injection Hint as <-.
  rewrite Hcap. vm_compute. reflexivity.
Defined.

(** ** The three stages in the order of the DAG *)

Section Stages.

Context {F : Type} `{EqDecision F}.
Variable geocode : str -> option (Location F).
Variable select_tables : str -> list (list tr).

Lemma extract_stage_none_store o (w : world F) :
  (extract_stage select_tables o w).1 = None ->
  xcom (extract_stage select_tables o w).2 = xcom w.
Proof.
  unfold extract_stage, get_wikipedia_data.
  destruct (match get_wikipedia_page o with
            | Some html => getitem (select_tables html) 0
            | None => Raise TypeError
            end) as [table|e]; cbn; unfold extract_wikipedia_data; [|done].
  by destruct (extract_rows table).
Qed.

Lemma extract_stage_table status_code body header data rest recs
    (w : world F) :
  (status_code < 400 \/ 600 <= status_code) ->
  select_tables body = (header :: data) :: rest ->
  map_rows 1 data = Ok recs ->
  extract_stage select_tables (Responded status_code body) w
  = (Some "OK"%string,
     xcom_push EXTRACT_TASK "rows" (Rows recs)
       (logging (LogInfo "Rows retrieved")
          (logging (LogInfo "Data retrieved from page...") w))).
Proof.
  intros Hsc Hsel Hrecs.
  unfold extract_stage, get_wikipedia_data, get_wikipedia_page, getitem.
  assert ((400 <=? status_code) && (status_code <? 600) = false) as ->.
  { apply andb_false_iff. destruct Hsc; [left | right]; lia. }
  rewrite Hsel. cbn. unfold extract_wikipedia_data, extract_rows.
  change (drop 1 (header :: data)) with data. by rewrite Hrecs.
Qed.

End Stages.

(** X19: in a run whose store holds no rows yet, a failed extract stage
    leaves the transform stage without input: it raises a [TypeError]. *)
Theorem transform_after_failed_extract {F : Type} `{EqDecision F}
    (geocode : str -> option (Location F))
    (select_tables : str -> list (list tr)) (o : http_outcome)
    (w : world F) :
  xcom w !! (EXTRACT_TASK, "rows"%string) = None ->
  (extract_stage select_tables o w).1 = None ->
  transform_wikipedia_data geocode (extract_stage select_tables o w).2
  = Raise TypeError.
Proof.
  intros Hfresh Hnone. unfold transform_wikipedia_data.
  by rewrite (extract_stage_none_store select_tables o w Hnone), Hfresh.
Qed.

Lemma transform_after_failed_extract_witness :
  transform_wikipedia_data geo_none
    (extract_stage (fun _ => [table_short]) (Responded 200 []) w0).2
  = Raise TypeError.
Proof.
  apply (transform_after_failed_extract geo_none (fun _ => [table_short])
           (Responded 200 []) w0); reflexivity.
Defined.

(** X20: end to end, in the order the DAG runs the tasks: when the page
    is fetched, its first matching table has a header row and N >= 1
    well-formed data rows, [int()] reads every cleaned capacity cell as an
    integer of the [int64] range, and the geocoding service answers every
    query, the extract and transform stages return "OK" and the write
    stage hands [to_csv] a frame of N rows ranked 1..N under the path of
    the run's file name. *)
Theorem pipeline_end_to_end {F : Type} `{EqDecision F}
    (geocode : str -> option (Location F))
    (service : str -> result (option (Location F)))
    (select_tables : str -> list (list tr)) (w : world F) (date time : str)
    (status_code : Z) (body : str) (header : tr) (data : list tr)
    (rest : list (list tr)) :
  (forall q, service q = Ok (geocode q)) ->
  (status_code < 400 \/ 600 <= status_code) ->
  select_tables body = (header :: data) :: rest ->
  data <> [] ->
  forallb row_ok data = true ->
  Forall (fun tds => exists c1 cap,
            tds !! 1%nat = Some c1
            /\ astype_int (capacity_text (text c1)) = Ok cap) data ->
  exists w1 w2 df,
    extract_stage select_tables (Responded status_code body) w
    = (Some "OK"%string, w1)
    /\ transform_wikipedia_data_raising service w1 = Ok ("OK"%string, w2)
    /\ write_wikipedia_data date time w2
       = Ok (DATA_DIR ++ file_name date time, df)
    /\ length df = length data
    /\ s_rank <$> df = Z.of_nat <$> seq 1 (length data).
Proof.
  intros Hans Hsc Hsel Hne Hok Hcap.
  destruct (map_rows_ok 1 data Hok) as (recs & Hrecs & Hlen & Hranks).
  change (Z.of_nat 1) with 1 in Hrecs.
  assert (exists df, transform geocode recs = Ok df) as [df Hdf].
  { apply transform_ok.
    - intros ->. destruct data; [done | simpl in Hlen; lia].
    - apply Forall_forall. intros v Hv.
      destruct (map_rows_elem _ _ _ _ Hrecs Hv) as (i & tds & Htds & Hrow).
      destruct (row_values_inv _ _ _ Hrow)
        as (_ & _ & c1 & c5 & u & H1 & _ & -> & _).
      rewrite Forall_forall in Hcap.
      destruct (Hcap tds Htds) as (c1' & cap & H1' & Hc).
      rewrite H1 in H1'. injection H1' as <-. eauto. }
  eexists _, _, df. split_and!.
  - by apply (extract_stage_table select_tables status_code body header
                data rest recs).
  - unfold transform_wikipedia_data_raising, xcom_push. cbn [xcom].
    rewrite lookup_insert_eq. cbn.
    rewrite (transform_raising_answers geocode service recs Hans), Hdf.
    cbn. reflexivity.
  - unfold write_wikipedia_data, xcom_push. cbn [xcom].
    rewrite lookup_insert_eq. reflexivity.
  - rewrite (transform_length geocode recs df Hdf). done.
  - rewrite (transform_ranks geocode recs df Hdf). done.
Qed.

Lemma pipeline_end_to_end_witness :
  exists w1 w2 df,
    extract_stage (fun _ => [table_ok]) (Responded 200 []) w0
    = (Some "OK"%string, w1)
    /\ transform_wikipedia_data_raising svc_city w1 = Ok ("OK"%string, w2)
    /\ write_wikipedia_data (lit "2024-09-17") (lit "10:11:12.000001") w2
       = Ok (DATA_DIR
               ++ file_name (lit "2024-09-17") (lit "10:11:12.000001"), df)
    /\ length df = 2%nat
    /\ s_rank <$> df = [1; 2].
Proof.
  apply (pipeline_end_to_end geo_city svc_city (fun _ => [table_ok]) w0
           (lit "2024-09-17") (lit "10:11:12.000001") 200 [] header
           [row_a; row_b] []).
  - reflexivity.
  - left. lia.
  - reflexivity.
  - discriminate.
  - vm_compute. reflexivity.
  - repeat constructor; eexists _, _; (split; [reflexivity|]);
      vm_compute; reflexivity.
Defined.

(** ** The name of the written file *)

Section FileName.

Implicit Types (s t date time : str) (c d : char).

Lemma replace_char c d s :
  replace [c] [d] s = (fun x => if (x =? c)%N then d else x) <$> s.
Proof.
  unfold replace. induction s as [|x s IH]; cbn [replace_go fmap list_fmap];
    [done|].
  rewrite startswith_single, (N.eqb_sym x c).
  destruct (c =? x)%N; simpl; by rewrite IH.
Qed.

Lemma replace_char_gone c d s : c <> d -> c ∉ replace [c] [d] s.
Proof.
  intros Hcd. rewrite replace_char.
  intros (x & Hx & _)%list_elem_of_fmap.
  destruct (N.eqb_spec x c); congruence.
Qed.



End FileName.

(** X21: the file name holds no colon, whatever the time of day reads,
    as long as the date holds none. *)
Theorem file_name_no_colon (date time : str) :
  58%N ∉ date -> 58%N ∉ file_name date time.
Proof.
  intros Hdate. unfold file_name. rewrite !elem_of_app.
  intros [H|[H|[H|[H|H]]]]; try done.
  - apply list_elem_of_In in H. vm_compute in H. intuition discriminate.
  - apply list_elem_of_In in H. vm_compute in H. intuition discriminate.
  - by apply (replace_char_gone 58%N 95%N time) in H.
  - apply list_elem_of_In in H. vm_compute in H. intuition discriminate.
Qed.

Lemma file_name_no_colon_witness :
  58%N ∉ file_name (lit "2024-09-17") (lit "10:11:12.000001").
Proof.
  apply file_name_no_colon. rewrite list_elem_of_In. vm_compute.
  intuition discriminate.
Defined.


